(** * Library inventory manager

  A shallow embedding of [Lab_Assignment-3/Library_manager.py]: the [Book]
  and [ReferenceBook] classes, their dictionary codec ([to_dict] and
  [from_dict]), the [LibraryInventory] class with its catalog file, and the
  command-line helpers that drive them.

  Conventions.
  - Python [str] values are [string]s whose characters are Latin-1 code
    points (0 to 255).  [str.strip], [str.lower] and [in] are defined on
    that alphabet, where they agree with Python.
  - A method that mutates [self] or performs input/output is a function of
    the program [state]; an exception is a [Raise] result.
  - A [Book] held by the inventory is designated by its position in
    [books]; [search_by_isbn] returns that position, so the mutation done
    through the returned object is a mutation of the held one.
  - A file is its decoded text; a file that exists can be read, and opening
    a path for writing fails for the paths the state lists as unwritable.
  - The logger receives records that carry the data of each message rather
    than its rendered text.
  - The interpreter is CPython 3.11 with its default limits: [json.loads]
    raises [RecursionError] on a document nested beyond the recursion limit
    and [ValueError] on an [int] numeral of more than 4300 digits, and
    [load_catalog] handles both as it handles any exception other than
    [JSONDecodeError].

  Left out: the listing of all books ([display_all], [view_all_cli]),
  [confirm] and the menu loop [main]. *)

From Stdlib Require Import ZArith NArith Ascii String List Lia DecimalString.
From stdpp Require Import base option list gmap strings.

Local Open Scope string_scope.

(** ** Text *)

Module Str.

(** [str.isspace] on one Latin-1 character: TAB to CR, FS to US, SPACE,
    NEL and NBSP. *)
Definition isspace (c : ascii) : bool :=
  let n := N_of_ascii c in
  ((9 <=? n) && (n <=? 13) || (28 <=? n) && (n <=? 32)
   || (n =? 133) || (n =? 160))%N.

(** [str.lower] on one Latin-1 character: A-Z and the accented capitals
    (all of 0xC0-0xDE but the multiplication sign) move up by 32. *)
Definition lower_char (c : ascii) : ascii :=
  let n := N_of_ascii c in
  if ((65 <=? n) && (n <=? 90)
      || (192 <=? n) && (n <=? 222) && negb (n =? 215))%N
  then ascii_of_N (n + 32) else c.

Fixpoint lower (s : string) : string :=
  match s with
  | "" => ""
  | String c s' => String (lower_char c) (lower s')
  end.

Fixpoint lstrip (s : string) : string :=
  match s with
  | "" => ""
  | String c s' => if isspace c then lstrip s' else s
  end.

Fixpoint rstrip (s : string) : string :=
  match s with
  | "" => ""
  | String c s' =>
      match rstrip s' with
      | "" => if isspace c then "" else String c ""
      | r => String c r
      end
  end.

(** [s.strip()] *)
Definition strip (s : string) : string := rstrip (lstrip s).

Fixpoint startswith (p s : string) : bool :=
  match p, s with
  | "", _ => true
  | String a p', String b s' => Ascii.eqb a b && startswith p' s'
  | String _ _, "" => false
  end.

(** [q in t] for two strings: [q] occurs in [t] as a contiguous run. *)
Fixpoint contains (q t : string) : bool :=
  startswith q t
  || match t with
     | "" => false
     | String _ t' => contains q t'
     end.

(** Every character of [s] is white space. *)
Fixpoint blank (s : string) : bool :=
  match s with
  | "" => true
  | String c s' => isspace c && blank s'
  end.

(** [s] neither starts nor ends with white space. *)
Definition trimmed (s : string) : Prop := strip s = s.

End Str.

Import Str.

(** ** Values read from and written to the catalog

    What [json.loads] returns: [None], a [bool], an [int], a [float], a
    [str], a [list] or a [dict] with [str] keys.  A dictionary keeps its
    keys in insertion order.  No operation of the program inspects a
    [float], which is kept as the numeral it was read from. *)

#[warnings="-register-all"]
Inductive json : Type :=
| JNull
| JBool (b : bool)
| JInt (z : Z)
| JFloat (numeral : string)
| JStr (s : string)
| JArray (items : list json)
| JObject (members : list (string * json)).

(** [d.get(k)] *)
Fixpoint dict_get {A} (k : string) (d : list (string * A)) : option A :=
  match d with
  | [] => None
  | (k', v) :: d' => if String.eqb k' k then Some v else dict_get k d'
  end.

(** [d[k] = v]: an existing key keeps its place and takes the new value, a
    new key goes last. *)
Fixpoint dict_set {A} (k : string) (v : A) (d : list (string * A))
  : list (string * A) :=
  match d with
  | [] => [(k, v)]
  | (k', v') :: d' =>
      if String.eqb k' k then (k', v) :: d' else (k', v') :: dict_set k v d'
  end.

(** ** Exceptions *)

Inductive exn : Type :=
| KeyError (key : string)
| AttributeError
| TypeError
| JSONDecodeError
| EOFError
| OSError
| ValueError
| RecursionError
| NotLatin1
| OutOfFuel.
(** [NotLatin1] and [OutOfFuel] are not Python exceptions.  The catalog
    reader answers [NotLatin1] for a document this development does not
    follow: one with a [\u] escape above U+00FF, a character the strings
    here cannot hold, or one nested so deep that the calls already on the
    interpreter's stack decide whether Python still reads it (see
    [Load.json_loads]).  No handler catches it.  [OutOfFuel] is the reader
    out of fuel, which [Load.json_loads] never is ([json_loads_fuel]
    below). *)

Inductive result (A : Type) : Type :=
| Ok (a : A)
| Raise (e : exn).
Arguments Ok {A} a.
Arguments Raise {A} e.

Definition rbind {A B} (r : result A) (k : A -> result B) : result B :=
  match r with
  | Ok a => k a
  | Raise e => Raise e
  end.

#[global] Instance result_ret : MRet result := fun A a => Ok a.
#[global] Instance result_bind : MBind result := fun A B k r => rbind r k.

(** A list comprehension [[f(x) for x in l]] whose body may raise: the
    first exception ends it. *)
Fixpoint comprehension {A B} (f : A -> result B) (l : list A) : result (list B) :=
  match l with
  | [] => Ok []
  | x :: l' =>
      y ← f x; ys ← comprehension f l'; Ok (y :: ys)
  end.

(** [d[k]] *)
Definition getitem (d : list (string * json)) (k : string) : result json :=
  match dict_get k d with
  | Some v => Ok v
  | None => Raise (KeyError k)
  end.

(** [v.strip()]: only a [str] has the method. *)
Definition call_strip (v : json) : result string :=
  match v with
  | JStr s => Ok (strip s)
  | _ => Raise AttributeError
  end.

(** [v == "..."] against a [str] literal. *)
Definition eq_str (v : json) (lit : string) : bool :=
  match v with
  | JStr s => String.eqb s lit
  | _ => false
  end.

(** [for item in data]: a list gives its items, a dictionary its keys, a
    string its characters; nothing else iterates. *)
Fixpoint chars (s : string) : list json :=
  match s with
  | "" => []
  | String c s' => JStr (String c "") :: chars s'
  end.

Definition iterate (data : json) : result (list json) :=
  match data with
  | JArray l => Ok l
  | JObject d => Ok (map (fun kv => JStr (fst kv)) d)
  | JStr s => Ok (chars s)
  | _ => Raise TypeError
  end.

(** ** Book and ReferenceBook *)

Inductive class : Type := CBook | CReferenceBook.

(** [cls.__name__] *)
Definition class_name (c : class) : string :=
  match c with
  | CBook => "Book"
  | CReferenceBook => "ReferenceBook"
  end.

Record Book : Type := mkBook {
  cls : class;
  title : string;
  author : string;
  isbn : string;
  status : string }.

(** [Book.__init__] (inherited by [ReferenceBook]) on [str] arguments. *)
Definition Book_new (c : class) (title author isbn status : string) : Book :=
  {| cls := c;
     title := strip title;
     author := strip author;
     isbn := strip isbn;
     status := lower (strip status) |}.

(** [Book.__init__] on arbitrary arguments, as [from_dict] calls it. *)
Definition Book_init (c : class) (title author isbn status : json) : result Book :=
  t ← call_strip title;
  a ← call_strip author;
  i ← call_strip isbn;
  s ← call_strip status;
  Ok {| cls := c; title := t; author := a; isbn := i; status := lower s |}.

Definition to_dict (b : Book) : list (string * string) :=
  [ ("title", title b);
    ("author", author b);
    ("isbn", isbn b);
    ("status", status b);
    ("type", class_name (cls b)) ].

(** A dictionary of strings as a value. *)
Definition as_json (d : list (string * string)) : json :=
  JObject (map (fun kv => (fst kv, JStr (snd kv))) d).

Definition from_dict (data : json) : result Book :=
  match data with
  | JObject d =>
      let book_type := default (JStr "Book") (dict_get "type" d) in
      let c := if eq_str book_type "ReferenceBook" then CReferenceBook else CBook in
      t ← getitem d "title";
      a ← getitem d "author";
      i ← getitem d "isbn";
      Book_init c t a i (default (JStr "available") (dict_get "status" d))
  | _ => Raise AttributeError
  end.

Definition is_available (b : Book) : bool := String.eqb (status b) "available".

Definition set_status (b : Book) (s : string) : Book :=
  {| cls := cls b; title := title b; author := author b; isbn := isbn b;
     status := s |}.

(** [issue], dispatched on the class: [ReferenceBook] overrides it. *)
Definition issue (b : Book) : bool * Book :=
  match cls b with
  | CReferenceBook => (false, b)
  | CBook =>
      if is_available b then (true, set_status b "issued") else (false, b)
  end.

Definition return_book (b : Book) : bool * Book :=
  if negb (is_available b) then (true, set_status b "available") else (false, b).

(** [isinstance(b, ReferenceBook)] *)
Definition is_reference (b : Book) : bool :=
  match cls b with
  | CReferenceBook => true
  | CBook => false
  end.

(** ** The program state

    The inventory object ([books], [catalog_path]) and the world around it:
    the files by path, the paths that cannot be opened for writing, the
    lines waiting on standard input, what was written to standard output,
    and the records sent to the logger. *)

Inductive output : Type :=
| Print (line : string)
| PrintUnexpected (e : exn)   (* print(f"Unexpected error loading catalog: {e}") *)
| Prompt (text : string).     (* the prompt of input(text) *)

Inductive log_record : Type :=
| InfoDuplicate (isbn : string)
| InfoAdded (b : Book)
| InfoTitleSearch (query : string) (found : nat)
| InfoIsbnFound (query : string) (b : Book)
| InfoIsbnNothing (query : string)
| InfoSaved
| ErrorSaving (e : exn)
| InfoNoCatalog
| WarningEmptyCatalog
| InfoLoaded (count : nat)
| ErrorDecode
| InfoReset
| ErrorReset (e : exn)
| InfoBackedUp
| ErrorBackup (e : exn)
| ErrorUnexpected (e : exn)
| InfoIssued (isbn : string)
| InfoReturned (isbn : string).

Record state : Type := mkState {
  books : list Book;
  catalog_path : string;
  files : gmap string string;
  unwritable : gset string;
  stdin : list string;
  stdout : list output;
  log : list log_record }.

Definition set_books (bs : list Book) (st : state) : state :=
  mkState bs (catalog_path st) (files st) (unwritable st)
    (stdin st) (stdout st) (log st).

Definition set_files (fs : gmap string string) (st : state) : state :=
  mkState (books st) (catalog_path st) fs (unwritable st)
    (stdin st) (stdout st) (log st).

Definition set_stdin (ls : list string) (st : state) : state :=
  mkState (books st) (catalog_path st) (files st)
    (unwritable st) ls (stdout st) (log st).

Definition emit (o : output) (st : state) : state :=
  mkState (books st) (catalog_path st) (files st)
    (unwritable st) (stdin st) (stdout st ++ [o]) (log st).

Definition logger (r : log_record) (st : state) : state :=
  mkState (books st) (catalog_path st) (files st)
    (unwritable st) (stdin st) (stdout st) (log st ++ [r]).

(** A computation that reads and changes the state and may raise. *)
Definition M (A : Type) : Type := state -> result A * state.

Definition ret {A} (a : A) : M A := fun st => (Ok a, st).

Definition bind {A B} (m : M A) (k : A -> M B) : M B :=
  fun st =>
    match m st with
    | (Ok a, st') => k a st'
    | (Raise e, st') => (Raise e, st')
    end.

Definition tell (f : state -> state) : M unit := fun st => (Ok tt, f st).

#[global] Instance M_ret : MRet M := @ret.
#[global] Instance M_bind : MBind M := fun A B k m => bind m k.

(** [print(line)] *)
Definition print (line : string) : M unit := tell (emit (Print line)).

(** [input(text)]: writes the prompt, then takes the next line; the end of
    the input raises [EOFError]. *)
Definition input (text : string) : M string :=
  fun st =>
    let st := emit (Prompt text) st in
    match stdin st with
    | [] => (Raise EOFError, st)
    | l :: ls => (Ok l, set_stdin ls st)
    end.

(** [with path.open("w") as f: f.write(text)] *)
Definition write_file (path text : string) : M unit :=
  fun st =>
    if decide (path ∈ unwritable st) then (Raise OSError, st)
    else (Ok tt, set_files (<[path := text]> (files st)) st).

(** [src.replace(dst)]: the file moves to [dst], replacing what was there. *)
Definition replace_file (src dst : string) : M unit :=
  fun st =>
    match files st !! src with
    | None => (Raise OSError, st)
    | Some text =>
        if decide (dst ∈ unwritable st) then (Raise OSError, st)
        else (Ok tt, set_files (<[dst := text]> (delete src (files st))) st)
    end.

(** [try: body except Exception as e: handler(e)] *)
Definition try_except {A} (body : M A) (handler : exn -> M A) : M A :=
  fun st =>
    match body st with
    | (Raise NotLatin1, st') => (Raise NotLatin1, st')
    | (Raise e, st') => handler e st'
    | r => r
    end.

(** ** Writing the catalog: [json.dump]

    [save_catalog] dumps a list of dictionaries of strings with [indent=2];
    the recovery paths dump the empty list.  [ensure_ascii] is on: every
    character outside SPACE..TILDE is escaped. *)

Module Dump.

Definition dquote : ascii := ascii_of_nat 34.
Definition backslash : ascii := ascii_of_nat 92.
Definition newline : ascii := ascii_of_nat 10.

Definition hex_digit (n : N) : ascii :=
  if (n <? 10)%N then ascii_of_N (48 + n) else ascii_of_N (87 + n).

(** [\u00XX] *)
Definition escape_u (n : N) : string :=
  String backslash
    (String "u" (String "0" (String "0"
       (String (hex_digit (n / 16)) (String (hex_digit (n mod 16)) ""))))).

Definition escape_char (c : ascii) : string :=
  let n := N_of_ascii c in
  if (n =? 34)%N then String backslash (String dquote "")
  else if (n =? 92)%N then String backslash (String backslash "")
  else if (n =? 10)%N then String backslash "n"
  else if (n =? 13)%N then String backslash "r"
  else if (n =? 9)%N then String backslash "t"
  else if (n =? 12)%N then String backslash "f"
  else if (n =? 8)%N then String backslash "b"
  else if ((32 <=? n) && (n <=? 126))%N then String c ""
  else escape_u n.

Fixpoint escape (s : string) : string :=
  match s with
  | "" => ""
  | String c s' => escape_char c +:+ escape s'
  end.

(** [encoder(s)]: the string between quotes, escaped. *)
Definition encode_str (s : string) : string :=
  String dquote (escape s +:+ String dquote "").

Fixpoint spaces (n : nat) : string :=
  match n with
  | O => ""
  | S n' => String " " (spaces n')
  end.

(** ['\n' + indent * level] *)
Definition newline_indent (indent level : nat) : string :=
  String newline (spaces (indent * level)).

(** Pieces joined by [sep]. *)
Fixpoint join (sep : string) (l : list string) : string :=
  match l with
  | [] => ""
  | [x] => x
  | x :: l' => x +:+ sep +:+ join sep l'
  end.

Definition encode_member (kv : string * string) : string :=
  encode_str (fst kv) +:+ ": " +:+ encode_str (snd kv).

(** A dictionary of strings at nesting [level]. *)
Definition encode_dict (indent level : nat) (d : list (string * string)) : string :=
  match d with
  | [] => "{}"
  | _ =>
      "{" +:+ newline_indent indent (S level)
      +:+ join ("," +:+ newline_indent indent (S level)) (map encode_member d)
      +:+ newline_indent indent level +:+ "}"
  end.

(** [json.dump(data, f, indent=indent)] for a list of dictionaries. *)
Definition dump_indent (indent : nat) (data : list (list (string * string))) : string :=
  match data with
  | [] => "[]"
  | _ =>
      "[" +:+ newline_indent indent 1
      +:+ join ("," +:+ newline_indent indent 1) (map (encode_dict indent 1) data)
      +:+ newline_indent indent 0 +:+ "]"
  end.

(** [json.dump([], f)] *)
Definition dump_empty : string := "[]".

End Dump.

(** ** Reading the catalog: [json.loads]

    The scanner of Python's [json] module on a Latin-1 document: white space
    is SPACE, TAB, LF and CR; a string may not hold a raw control character;
    a numeral with a fraction or an exponent is a [float], any other an
    [int]; [NaN], [Infinity] and [-Infinity] are accepted; a key met twice
    keeps its first place and its last value.

    Two limits of the interpreter are part of the reader, as CPython 3.11
    has them by default.  An [int] numeral of more than 4300 digits raises
    [ValueError].  Every array or object entered takes one level of the
    interpreter's recursion, which the limit of 1000 bounds: to enter a
    container when no level is left raises [RecursionError].  Neither is a
    [JSONDecodeError].

    The recursion is structural on a fuel, which [json_loads] sets beyond
    what a document of its length can use ([json_loads_fuel] below). *)

Module Load.

Definition code (c : ascii) : N := N_of_ascii c.

Definition is_ws (c : ascii) : bool :=
  ((code c =? 32) || (code c =? 9) || (code c =? 10) || (code c =? 13))%N.

Fixpoint skip_ws (s : string) : string :=
  match s with
  | "" => ""
  | String c s' => if is_ws c then skip_ws s' else s
  end.

Definition is_digit (c : ascii) : bool := ((48 <=? code c) && (code c <=? 57))%N.

(** The longest run of digits at the head of [s], and what follows it. *)
Fixpoint digits (s : string) : string * string :=
  match s with
  | "" => ("", "")
  | String c s' =>
      if is_digit c then let '(ds, r) := digits s' in (String c ds, r)
      else ("", s)
  end.

Fixpoint int_of_digits (acc : Z) (ds : string) : Z :=
  match ds with
  | "" => acc
  | String c ds' => int_of_digits (10 * acc + Z.of_N (code c - 48)) ds'
  end.

Definition hex_val (c : ascii) : option N :=
  let n := code c in
  if ((48 <=? n) && (n <=? 57))%N then Some (n - 48)%N
  else if ((97 <=? n) && (n <=? 102))%N then Some (n - 87)%N
  else if ((65 <=? n) && (n <=? 70))%N then Some (n - 55)%N
  else None.

Definition hex4 (a b c d : ascii) : option N :=
  x ← hex_val a; y ← hex_val b; z ← hex_val c; w ← hex_val d;
  Some (((x * 16 + y) * 16 + z) * 16 + w)%N.

(** The character a one-letter escape stands for. *)
Definition unescape (e : ascii) : option ascii :=
  let n := code e in
  if ((n =? 34) || (n =? 92) || (n =? 47))%N then Some e
  else if (n =? 98)%N then Some (ascii_of_nat 8)
  else if (n =? 102)%N then Some (ascii_of_nat 12)
  else if (n =? 110)%N then Some (ascii_of_nat 10)
  else if (n =? 114)%N then Some (ascii_of_nat 13)
  else if (n =? 116)%N then Some (ascii_of_nat 9)
  else None.

Definition push (c : ascii) (p : string * string) : string * string :=
  (String c (fst p), snd p).

(** The string whose opening quote was just read: its content and what
    follows the closing quote. *)
Fixpoint scanstring (s : string) : result (string * string) :=
  match s with
  | "" => Raise JSONDecodeError
  | String c s' =>
      if (code c =? 34)%N then Ok ("", s')
      else if (code c =? 92)%N then
        match s' with
        | "" => Raise JSONDecodeError
        | String e s'' =>
            if (code e =? 117)%N then
              match s'' with
              | String h1 (String h2 (String h3 (String h4 rest))) =>
                  match hex4 h1 h2 h3 h4 with
                  | None => Raise JSONDecodeError
                  | Some v =>
                      if (v <=? 255)%N
                      then p ← scanstring rest; Ok (push (ascii_of_N v) p)
                      else Raise NotLatin1
                  end
              | _ => Raise JSONDecodeError
              end
            else
              match unescape e with
              | None => Raise JSONDecodeError
              | Some ch => p ← scanstring s''; Ok (push ch p)
              end
        end
      else if (code c <? 32)%N then Raise JSONDecodeError
      else p ← scanstring s'; Ok (push c p)
  end.

(** [s] without the prefix [p], when it has it. *)
Fixpoint after (p s : string) : option string :=
  match p, s with
  | "", _ => Some s
  | String a p', String b s' => if Ascii.eqb a b then after p' s' else None
  | String _ _, "" => None
  end.

(** The fraction [.ddd] at the head of [s], if any. *)
Definition fraction (s : string) : string * string :=
  match s with
  | String dot (String d r) =>
      if (code dot =? 46)%N && is_digit d
      then let '(ds, r') := digits (String d r) in (String dot ds, r')
      else ("", s)
  | _ => ("", s)
  end.

(** The exponent [e+ddd] at the head of [s], if any. *)
Definition exponent (s : string) : string * string :=
  match s with
  | String e r =>
      if ((code e =? 101) || (code e =? 69))%N then
        let '(sign, r1) :=
          match r with
          | String g r' =>
              if ((code g =? 43) || (code g =? 45))%N then (String g "", r')
              else ("", r)
          | "" => ("", r)
          end in
        let '(ds, r2) := digits r1 in
        match ds with
        | "" => ("", s)
        | _ => (String e (sign +:+ ds), r2)
        end
      else ("", s)
  | "" => ("", s)
  end.

(** [sys.int_info.default_max_str_digits]: the digits that [int] accepts in
    a numeral. *)
Definition max_str_digits : N := 4300.

Definition match_number (s : string) : result (json * string) :=
  let '(neg, s1) :=
    match s with
    | String c r => if (code c =? 45)%N then (true, r) else (false, s)
    | "" => (false, s)
    end in
  match s1 with
  | "" => Raise JSONDecodeError
  | String c r =>
      if is_digit c then
        let '(int_part, r1) :=
          if (code c =? 48)%N then (String c "", r) else digits s1 in
        let '(frac, r2) := fraction r1 in
        let '(ex, r3) := exponent r2 in
        match frac, ex with
        | "", "" =>
            if (max_str_digits <? N.of_nat (String.length int_part))%N
            then Raise ValueError
            else
              let z := int_of_digits 0 int_part in
              Ok (JInt (if neg then - z else z)%Z, r3)
        | _, _ =>
            Ok (JFloat ((if neg then "-" else "") +:+ int_part +:+ frac +:+ ex), r3)
        end
      else Raise JSONDecodeError
  end.

(** A named constant at the head of [s], or else a numeral. *)
Definition constant_or_number (s : string) : result (json * string) :=
  match after "null" s, after "true" s, after "false" s with
  | Some r, _, _ => Ok (JNull, r)
  | _, Some r, _ => Ok (JBool true, r)
  | _, _, Some r => Ok (JBool false, r)
  | _, _, _ =>
      match after "NaN" s, after "Infinity" s, after "-Infinity" s with
      | Some r, _, _ => Ok (JFloat "NaN", r)
      | _, Some r, _ => Ok (JFloat "Infinity", r)
      | _, _, Some r => Ok (JFloat "-Infinity", r)
      | _, _, _ => match_number s
      end
  end.

(** The value at the head of [s] and what follows it.  [room] is the number
    of containers that can still be entered, one inside the other, and
    [over] what entering one more raises. *)
Fixpoint scan_once (over : exn) (fuel room : nat) (s : string)
  : result (json * string) :=
  match fuel with
  | O => Raise OutOfFuel
  | S fuel' =>
      match s with
      | "" => Raise JSONDecodeError
      | String c r =>
          if (code c =? 34)%N then
            p ← scanstring r; Ok (JStr (fst p), snd p)
          else if (code c =? 123)%N then
            match room with
            | O => Raise over
            | S room' =>
                match skip_ws r with
                | String c' r' =>
                    if (code c' =? 125)%N then Ok (JObject [], r')
                    else members over fuel' room' [] (String c' r')
                | "" => Raise JSONDecodeError
                end
            end
          else if (code c =? 91)%N then
            match room with
            | O => Raise over
            | S room' =>
                match skip_ws r with
                | String c' r' =>
                    if (code c' =? 93)%N then Ok (JArray [], r')
                    else elements over fuel' room' [] (String c' r')
                | "" => Raise JSONDecodeError
                end
            end
          else constant_or_number s
      end
  end

(** The members of an object from a property name on, after [acc]. *)
with members (over : exn) (fuel room : nat) (acc : list (string * json))
    (s : string) : result (json * string) :=
  match fuel with
  | O => Raise OutOfFuel
  | S fuel' =>
      match s with
      | "" => Raise JSONDecodeError
      | String c r =>
          if (code c =? 34)%N then
            k ← scanstring r;
            match skip_ws (snd k) with
            | String colon r1 =>
                if (code colon =? 58)%N then
                  v ← scan_once over fuel' room (skip_ws r1);
                  let acc' := dict_set (fst k) (fst v) acc in
                  match skip_ws (snd v) with
                  | String c2 r2 =>
                      if (code c2 =? 125)%N then Ok (JObject acc', r2)
                      else if (code c2 =? 44)%N
                           then members over fuel' room acc' (skip_ws r2)
                           else Raise JSONDecodeError
                  | "" => Raise JSONDecodeError
                  end
                else Raise JSONDecodeError
            | "" => Raise JSONDecodeError
            end
          else Raise JSONDecodeError
      end
  end

(** The items of an array from a value on, after [acc]. *)
with elements (over : exn) (fuel room : nat) (acc : list json) (s : string)
  : result (json * string) :=
  match fuel with
  | O => Raise OutOfFuel
  | S fuel' =>
      v ← scan_once over fuel' room s;
      match skip_ws (snd v) with
      | String c2 r2 =>
          if (code c2 =? 93)%N then Ok (JArray (acc ++ [fst v]), r2)
          else if (code c2 =? 44)%N
               then elements over fuel' room (acc ++ [fst v]) (skip_ws r2)
               else Raise JSONDecodeError
      | "" => Raise JSONDecodeError
      end
  end.

(** The whole document, read with [room] levels of nesting. *)
Definition decode (over : exn) (room : nat) (raw : string) : result json :=
  v ← scan_once over (2 * String.length raw + 2) room (skip_ws raw);
  match skip_ws (snd v) with
  | "" => Ok (fst v)
  | _ => Raise JSONDecodeError
  end.

(** [sys.getrecursionlimit()] *)
Definition recursion_limit : nat := 1000.

(** A nesting that every run of the program reads.  The calls on the stack
    when the scanner starts take their levels from the thousand: fewer than
    ten from the entry point of the program, more under a test harness. *)
Definition sure_depth : nat := 500.

(** [json.loads(raw)].  A document that goes more than [recursion_limit]
    containers deep raises [RecursionError], however few calls are on the
    stack, and one that stays within [sure_depth] is read as it stands.  In
    between, where the stack decides, the answer is [NotLatin1]. *)
Definition json_loads (raw : string) : result json :=
  match decode RecursionError recursion_limit raw with
  | Raise RecursionError => Raise RecursionError
  | _ => decode NotLatin1 sure_depth raw
  end.

End Load.

(** Straight quotes written as apostrophes, to spell a document in a
    string literal. *)
Fixpoint doc (s : string) : string :=
  match s with
  | "" => ""
  | String c s' =>
      String (if (N_of_ascii c =? 39)%N then Dump.dquote else c) (doc s')
  end.

(** ** Paths

    A path is the text [pathlib] renders it as, components separated by a
    slash. *)

(** [s] around the last occurrence of [sep]. *)
Fixpoint rsplit (sep : ascii) (s : string) : option (string * string) :=
  match s with
  | "" => None
  | String c s' =>
      match rsplit sep s' with
      | Some (a, b) => Some (String c a, b)
      | None => if Ascii.eqb c sep then Some ("", s') else None
      end
  end.

(** [p.with_suffix(suffix)]: the last dot of the final component and what
    follows it give way to [suffix], unless that dot is the first or the
    last character of the component; a path with no final component has no
    suffix to change. *)
Definition with_suffix (p suffix : string) : result string :=
  let '(parent, name) :=
    match rsplit "/" p with
    | Some (d, n) => (d +:+ "/", n)
    | None => ("", p)
    end in
  match name with
  | "" => Raise ValueError
  | _ =>
      let stem :=
        match rsplit "." name with
        | Some (String a r, String b r') => String a r
        | _ => name
        end in
      Ok (parent +:+ stem +:+ suffix)
  end.

(** ** LibraryInventory *)

(** The position and the value of the first book with the given [isbn]. *)
Fixpoint first_with_isbn (q : string) (bs : list Book) : option (nat * Book) :=
  match bs with
  | [] => None
  | b :: bs' =>
      if String.eqb (isbn b) q then Some (O, b)
      else prod_map S id <$> first_with_isbn q bs'
  end.

(** Returns the book found as its position in [books], which designates
    the object the Python method returns, and its fields. *)
Definition search_by_isbn (isbn_query : string) : M (option (nat * Book)) :=
  fun st =>
    let isbn_q := strip isbn_query in
    match first_with_isbn isbn_q (books st) with
    | Some (i, b) => (Ok (Some (i, b)), logger (InfoIsbnFound isbn_query b) st)
    | None => (Ok None, logger (InfoIsbnNothing isbn_query) st)
    end.

Definition add_book (book : Book) : M bool :=
  found ← search_by_isbn (isbn book);
  match found with
  | Some _ =>
      tell (logger (InfoDuplicate (isbn book)));;
      mret false
  | None =>
      tell (fun st => set_books (books st ++ [book]) st);;
      tell (logger (InfoAdded book));;
      mret true
  end.

Definition search_by_title (title_query : string) : M (list Book) :=
  fun st =>
    let q := lower (strip title_query) in
    let results := filter (fun b => contains q (lower (title b)) = true) (books st) in
    (Ok results, logger (InfoTitleSearch title_query (length results)) st).

Definition save_catalog : M bool :=
  fun st =>
    let data := map to_dict (books st) in
    try_except
      (write_file (catalog_path st) (Dump.dump_indent 2 data);;
       tell (logger InfoSaved);;
       mret true)
      (fun e => tell (logger (ErrorSaving e));; mret false)
      st.

(** The handler of [json.JSONDecodeError] in [load_catalog]; [raw] is the
    text that was read. *)
Definition recover (raw : string) : M bool :=
  tell (logger ErrorDecode);;
  print (String Dump.newline "ERROR: Catalog file is corrupted or not valid JSON.");;
  print "You can choose to (R)eset the catalog (this will overwrite the file), or (B)ackup & start fresh.";;
  answer ← input "Type R to reset, B to backup and start fresh, any other key to abort load: ";
  let choice := lower (strip answer) in
  if String.eqb choice "r" then
    try_except
      (fun st =>
         (write_file (catalog_path st) Dump.dump_empty;;
          tell (set_books []);;
          tell (logger InfoReset);;
          print "Catalog reset. Starting with empty catalog.";;
          mret true) st)
      (fun e =>
         tell (logger (ErrorReset e));;
         print "Failed to reset catalog file.";;
         mret false)
  else if String.eqb choice "b" then
    fun st =>
      match with_suffix (catalog_path st) ".backup.json" with
      | Raise e => (Raise e, st)
      | Ok backup_path =>
          try_except
            (replace_file (catalog_path st) backup_path;;
             write_file backup_path raw;;
             write_file (catalog_path st) Dump.dump_empty;;
             tell (set_books []);;
             tell (logger InfoBackedUp);;
             print ("Corrupted file backed up to " +:+ backup_path
                    +:+ ". Starting with empty catalog.");;
             mret true)
            (fun e =>
               tell (logger (ErrorBackup e));;
               print "Failed to backup corrupted catalog.";;
               mret false)
            st
      end
  else
    print "Aborted loading catalog. Program will continue with empty in-memory catalog (not saved).";;
    tell (set_books []);;
    mret true.

(** The handler of any other exception in [load_catalog]. *)
Definition unexpected (e : exn) : M bool :=
  tell (logger (ErrorUnexpected e));;
  tell (emit (PrintUnexpected e));;
  tell (set_books []);;
  mret false.

Definition load_catalog : M bool :=
  fun st =>
    match files st !! catalog_path st with
    | None => (Ok true, set_books [] (logger InfoNoCatalog st))
    | Some raw =>
        match strip raw with
        | "" => (Ok true, set_books [] (logger WarningEmptyCatalog st))
        | _ =>
            match Load.json_loads raw with
            | Raise JSONDecodeError => recover raw st
            | Raise NotLatin1 => (Raise NotLatin1, st)
            | Raise e => unexpected e st
            | Ok data =>
                match items ← iterate data; comprehension from_dict items with
                | Raise e => unexpected e st
                | Ok bs =>
                    (Ok true, logger (InfoLoaded (length bs)) (set_books bs st))
                end
            end
        end
    end.

(** [LibraryInventory.__init__] *)
Definition LibraryInventory_init (path : string) : M unit :=
  tell (fun st =>
          mkState [] path (files st) (unwritable st) (stdin st) (stdout st)
            (log st));;
  load_catalog;;
  mret tt.

(** ** Command-line helpers *)

(** [input_nonempty]: asks again until a line has more than white space.
    Every turn of the loop takes one line, so the loop runs along the lines
    waiting on standard input. *)
Fixpoint input_nonempty_loop (prompt : string) (lines : list string) (st : state)
  : result string * state :=
  match lines with
  | [] => (Raise EOFError, emit (Prompt prompt) st)
  | l :: ls =>
      let st := set_stdin ls (emit (Prompt prompt) st) in
      match strip l with
      | "" =>
          input_nonempty_loop prompt ls
            (emit (Print "Input cannot be empty. Try again.") st)
      | val => (Ok val, st)
      end
  end.

Definition input_nonempty (prompt : string) : M string :=
  fun st => input_nonempty_loop prompt (stdin st) st.

Definition add_book_cli : M unit :=
  print (String Dump.newline "---- Add a New Book ----");;
  title ← input_nonempty "Title: ";
  author ← input_nonempty "Author: ";
  isbn ← input_nonempty "ISBN (unique): ";
  answer ← input "Is this a reference book (cannot be issued)? (y/n): ";
  let is_ref := String.eqb (lower (strip answer)) "y" in
  let book :=
    if is_ref then Book_new CReferenceBook title author isbn "available"
    else Book_new CBook title author isbn "available" in
  added ← add_book book;
  if added : bool then print "Book added successfully."
  else print "A book with that ISBN already exists. Add aborted.".

(** [book.status = ...] on the book at position [i] of the inventory. *)
Definition store_book (i : nat) (b : Book) : M unit :=
  tell (fun st => set_books (<[i := b]> (books st)) st).

Definition issue_book_cli : M unit :=
  print (String Dump.newline "---- Issue a Book ----");;
  isbn_in ← input_nonempty "Enter ISBN of the book to issue: ";
  found ← search_by_isbn isbn_in;
  match found with
  | None => print "No book found with that ISBN."
  | Some (i, book) =>
      if is_reference book then
        print "This is a reference book and cannot be issued."
      else
        let '(issued, book') := issue book in
        store_book i book';;
        if issued : bool then
          tell (logger (InfoIssued (isbn book')));;
          print "Book issued successfully."
        else print "Book is not available for issue (may already be issued)."
  end.

Definition return_book_cli : M unit :=
  print (String Dump.newline "---- Return a Book ----");;
  isbn_in ← input_nonempty "Enter ISBN of the book to return: ";
  found ← search_by_isbn isbn_in;
  match found with
  | None => print "No book found with that ISBN."
  | Some (i, book) =>
      let '(returned, book') := return_book book in
      store_book i book';;
      if returned : bool then
        tell (logger (InfoReturned (isbn book')));;
        print "Book returned successfully."
      else print "Book was already available in the library (not issued)."
  end.

(** ** Rendering and the search screen *)

(** [str.capitalize] (Python 3.8 and later): the first character in title
    case, the others in lower case.  On Latin-1 the title case of a-z and
    of the accented small letters (0xE0-0xFE but the division sign) lies 32
    below, that of the sharp s is [Ss], and those of the micro sign and of
    the y with diaeresis lie outside Latin-1. *)
Definition capitalize (s : string) : result string :=
  match s with
  | "" => Ok ""
  | String c s' =>
      let n := N_of_ascii c in
      if ((n =? 181) || (n =? 255))%N then Raise NotLatin1
      else if (n =? 223)%N then Ok ("Ss" +:+ lower s')
      else if ((97 <=? n) && (n <=? 122)
               || (224 <=? n) && (n <=? 254) && negb (n =? 247))%N
      then Ok (String (ascii_of_N (n - 32)) (lower s'))
      else Ok (String c (lower s'))
  end.

(** [Book.__str__], which [ReferenceBook] overrides. *)
Definition Book_str (b : Book) : result string :=
  let head := title b +:+ " by " +:+ author b +:+ " (ISBN: " +:+ isbn b +:+ ") - " in
  match cls b with
  | CReferenceBook => Ok (head +:+ "Reference (Always in-library)")
  | CBook => shown ← capitalize (status b); Ok (head +:+ shown)
  end.

(** [str(b)] inside a computation. *)
Definition str (b : Book) : M string := fun st => (Book_str b, st).

(** The decimal numeral of a count, as an f-string renders it. *)
Definition decimal (n : nat) : string := NilEmpty.string_of_uint (Nat.to_uint n).

(** [for b in results: print(str(b))] *)
Fixpoint print_books (results : list Book) : M unit :=
  match results with
  | [] => mret tt
  | b :: results' => line ← str b; print line;; print_books results'
  end.

Definition search_cli : M unit :=
  print (String Dump.newline "---- Search ----");;
  print "1. Search by title";;
  print "2. Search by ISBN";;
  answer ← input "Choice (1/2): ";
  let choice := strip answer in
  if String.eqb choice "1" then
    q ← input_nonempty "Enter title keyword: ";
    results ← search_by_title q;
    match results with
    | [] => print "No books found with that title keyword."
    | _ =>
        print ("Found " +:+ decimal (length results) +:+ " result(s):");;
        print_books results
    end
  else if String.eqb choice "2" then
    q ← input_nonempty "Enter ISBN: ";
    found ← search_by_isbn q;
    match found with
    | Some (_, b) => print "Found:";; line ← str b; print line
    | None => print "No book found with that ISBN."
    end
  else print "Invalid choice.".

(** ** Vocabulary of the properties *)

(** A valid record: title, author and identifier trimmed and not empty, and
    the status one of the two states. *)
Definition valid (b : Book) : Prop :=
  (trimmed (title b) /\ title b <> "")
  /\ (trimmed (author b) /\ author b <> "")
  /\ (trimmed (isbn b) /\ isbn b <> "")
  /\ (status b = "available" \/ status b = "issued").

(** The identifiers held, in store order. *)
Definition ids (bs : list Book) : list string := isbn <$> bs.

(** No two books of the store share an identifier. *)
Definition unique_ids (bs : list Book) : Prop := NoDup (ids bs).

(** How many books of the store carry the identifier [i]. *)
Definition count_id (i : string) (bs : list Book) : nat :=
  length (filter (fun b => isbn b = i) bs).

(** Every reference book of the store is available. *)
Definition reference_available (b : Book) : Prop :=
  cls b = CReferenceBook -> status b = "available".

(** [needle] occurs in [text] as a contiguous run. *)
Definition occurs_in (needle text : string) : Prop :=
  exists pre post, text = pre +:+ needle +:+ post.

(** The title holds the query, letter case aside. *)
Definition title_contains (query : string) (b : Book) : Prop :=
  occurs_in (lower query) (lower (title b)).

(** The title holds the trimmed query, letter case aside. *)
Definition title_matches (query : string) (b : Book) : Prop :=
  occurs_in (lower (strip query)) (lower (title b)).

(** The class a dictionary stands for: [ReferenceBook] when its [type] is
    that very string, [Book] when the key is absent or holds anything
    else. *)
Definition decoded_class (d : list (string * json)) : class :=
  match dict_get "type" d with
  | Some (JStr ty) => if String.eqb ty "ReferenceBook" then CReferenceBook else CBook
  | _ => CBook
  end.

(** One of the required keys is absent. *)
Definition lacks_required (d : list (string * json)) : Prop :=
  dict_get "title" d = None \/ dict_get "author" d = None \/ dict_get "isbn" d = None.

(** The fields title, author and identifier are not empty. *)
Definition named (b : Book) : Prop :=
  title b <> "" /\ author b <> "" /\ isbn b <> "".

(** What the scanner may answer on [s]: a value and a rest shorter than
    [s], or an exception other than the exhaustion of the fuel. *)
Definition within_fuel (s : string) (res : result (json * string)) : Prop :=
  match res with
  | Ok (v, r) => String.length r < String.length s
  | Raise e => e <> OutOfFuel
  end.

(** A book as the program builds them: title, author and identifier
    trimmed, status trimmed and in lower case. *)
Definition well_formed (b : Book) : Prop :=
  trimmed (title b) /\ trimmed (author b) /\ trimmed (isbn b)
  /\ lower (strip (status b)) = status b.

(** The object a list of members builds up from [acc], as the reader
    collects them. *)
Definition collect (acc : list (string * json)) (d : list (string * string))
  : list (string * json) :=
  foldl (fun acc kv => dict_set (fst kv) (JStr (snd kv)) acc) acc d.

(** Two dictionaries hold the same under the keys [from_dict] reads. *)
Definition same_fields (d d' : list (string * json)) : Prop :=
  Forall (fun k => dict_get k d = dict_get k d')
    ["title"; "author"; "isbn"; "status"; "type"].

(** What [input_nonempty] writes while it meets [n] blank lines: the prompt
    and the complaint, once for each. *)
Definition retries (prompt : string) (n : nat) : list output :=
  concat (replicate n [Prompt prompt; Print "Input cannot be empty. Try again."]).

(** The state with other lines waiting and more written to standard
    output. *)
Definition after_io (lines : list string) (written : list output) (st : state)
  : state :=
  mkState (books st) (catalog_path st) (files st) (unwritable st)
    lines (stdout st ++ written) (log st).

(** What a loan never changes of a book. *)
Definition catalogue_entry (b : Book) : class * string * string * string :=
  (cls b, title b, author b, isbn b).

(** The lines that show [bs], when all can be rendered. *)
Definition rendered (bs : list Book) : result (list string) :=
  comprehension Book_str bs.

(** ** Invariants of a computation

    [keeps I m Q]: whatever [m] answers, it takes a state where [I] holds
    to one where [I] holds, and what it returns satisfies [Q]. *)

Definition keeps {A} (I : state -> Prop) (m : M A) (Q : A -> Prop) : Prop :=
  forall st, I st -> I (snd (m st)) /\ forall a, fst (m st) = Ok a -> Q a.

(** Every book of the store satisfies [P]. *)
Definition all_books (P : Book -> Prop) (st : state) : Prop :=
  Forall P (books st).

(** ** Sample books, dictionaries and states *)

Definition go_book : Book := mkBook CBook "Go" "A" "111" "issued".

Definition atlas : Book := mkBook CReferenceBook "Atlas" "B" "222" "available".

Definition issued_atlas : Book := mkBook CReferenceBook "Atlas" "B" "222" "issued".

Definition gopher : Book := Book_new CBook "Gopher" "Z" " 111 " "available".

Definition untitled : Book := Book_new CBook "   " "A" "1" "available".

Definition three_books : list Book := [go_book; atlas; gopher].

(** A dictionary whose title is a number. *)
Definition sample_number_title : list (string * json) :=
  [("title", JInt 5); ("author", JStr "A"); ("isbn", JStr "1")].

Definition sample_minimal : list (string * json) :=
  [("title", JStr " Go "); ("author", JStr "A"); ("isbn", JStr "111")].

Definition sample_shouting : list (string * json) :=
  [("title", JStr "Go"); ("author", JStr "A"); ("isbn", JStr "111");
   ("status", JStr " AVAILABLE "); ("type", JStr "Book")].

(** A catalog that records the identifier 111 twice. *)
Definition twice_111 : string :=
  doc "[{'title':'Go','author':'A','isbn':'111'},{'title':'Gopher','author':'Z','isbn':'111'}]".

(** A store holding [bs], with no file, no input and nothing written. *)
Definition shelf (bs : list Book) : state :=
  mkState bs "catalog.json" ∅ ∅ [] [] [].

(** A store holding [bs] with [lines] waiting on standard input. *)
Definition desk (bs : list Book) (lines : list string) : state :=
  mkState bs "catalog.json" ∅ ∅ lines [] [].

(** A catalog file that holds [text], read by a new inventory. *)
Definition on_disk (text : string) (lines : list string) : state :=
  mkState [] "catalog.json" {["catalog.json" := text]} ∅ lines [] [].

(** [n] times the character [c], then [tail]. *)
Fixpoint repeated (n : nat) (c : ascii) (tail : string) : string :=
  match n with
  | O => tail
  | S n' => String c (repeated n' c tail)
  end.



(** The scenario: a new inventory on [c.json], one book added, issued and
    saved. *)
Definition scenario : M bool :=
  LibraryInventory_init "c.json";;
  add_book_cli;;
  issue_book_cli;;
  save_catalog.

Definition scenario_lines : list string := ["Go"; "A"; "111"; "n"; "111"].

(** The text [save_catalog] writes in the scenario. *)
Definition scenario_text : string :=
  doc "[
  {
    'title': 'Go',
    'author': 'A',
    'isbn': '111',
    'status': 'issued',
    'type': 'Book'
  }
]".

(** The array the scenario is to leave on disk. *)
Definition scenario_document : string :=
  doc "[{'title':'Go','author':'A','isbn':'111','status':'issued','type':'Book'}]".

Definition scenario_value : json :=
  JArray
    [JObject
       [("title", JStr "Go"); ("author", JStr "A"); ("isbn", JStr "111");
        ("status", JStr "issued"); ("type", JStr "Book")]].

(** The state the scenario starts from: no file, nothing but the lines to
    be typed. *)
Definition scenario_start : state := mkState [] "" ∅ ∅ scenario_lines [] [].

(** Another run of the program: a store that knows nothing but the files,
    with a stray book in memory and another catalog path. *)
Definition elsewhere (fs : gmap string string) : state :=
  mkState [atlas] "stray.json" fs ∅ [] [] [].

(** * Properties *)

(** ** Text *)

Section StrFacts.

Lemma isspace_lower_char c : isspace (lower_char c) = isspace c.
Proof. destruct c as [[] [] [] [] [] [] [] []]; reflexivity. Qed.

Lemma lower_char_idemp c : lower_char (lower_char c) = lower_char c.
Proof. destruct c as [[] [] [] [] [] [] [] []]; reflexivity. Qed.

Lemma lower_idemp s : lower (lower s) = lower s.
Proof. induction s as [|c s IH]; simpl; [done|]. by rewrite lower_char_idemp, IH. Qed.

Lemma lstrip_lower s : lstrip (lower s) = lower (lstrip s).
Proof.
  induction s as [|c s IH]; simpl; [done|].
  rewrite isspace_lower_char. by destruct (isspace c).
Qed.

Lemma rstrip_lower s : rstrip (lower s) = lower (rstrip s).
Proof.
  induction s as [|c s IH]; simpl; [done|].
  rewrite IH, isspace_lower_char.
  destruct (rstrip s) eqn:E; simpl; [|done].
  by destruct (isspace c).
Qed.

Lemma strip_lower s : strip (lower s) = lower (strip s).
Proof. unfold strip. by rewrite lstrip_lower, rstrip_lower. Qed.

Lemma rstrip_idemp s : rstrip (rstrip s) = rstrip s.
Proof.
  induction s as [|c s IH]; simpl; [done|].
  destruct (rstrip s) as [|d r] eqn:E.
  - destruct (isspace c) eqn:Ec; simpl; [done|]. by rewrite Ec.
  - simpl. simpl in IH. by rewrite IH.
Qed.

(** [rstrip] keeps a first character that is not white space. *)
Lemma rstrip_head c s :
  isspace c = false -> exists r, rstrip (String c s) = String c r.
Proof.
  intros Hc. simpl. destruct (rstrip s); [rewrite Hc|]; eauto.
Qed.

Lemma lstrip_head s :
  lstrip s = "" \/ exists c r, lstrip s = String c r /\ isspace c = false.
Proof.
  induction s as [|c s IH]; simpl; [by left|].
  destruct (isspace c) eqn:Ec; [done|]. right; eauto.
Qed.

Lemma lstrip_rstrip_lstrip s : lstrip (rstrip (lstrip s)) = rstrip (lstrip s).
Proof.
  destruct (lstrip_head s) as [->|(c & r & -> & Hc)]; [done|].
  destruct (rstrip_head c r Hc) as [r' ->]. simpl. by rewrite Hc.
Qed.

Lemma strip_idemp s : strip (strip s) = strip s.
Proof. unfold strip. by rewrite lstrip_rstrip_lstrip, rstrip_idemp. Qed.

Lemma strip_trimmed s : trimmed (strip s).
Proof. apply strip_idemp. Qed.

(** A blank string strips to nothing, and only a blank one does. *)
Lemma lstrip_blank s : lstrip s = "" <-> blank s = true.
Proof.
  induction s as [|c s IH]; simpl; [done|].
  destruct (isspace c); simpl; [done|]. split; discriminate.
Qed.

Lemma rstrip_eq_empty s : rstrip s = "" <-> blank s = true.
Proof.
  induction s as [|c s IH]; simpl; [done|].
  destruct (rstrip s) eqn:E.
  - destruct (isspace c); simpl; [tauto|]. split; [discriminate|]. done.
  - split; [discriminate|]. intros [_ H]%andb_prop. apply IH in H. discriminate.
Qed.

Lemma blank_lstrip s : blank (lstrip s) = true -> blank s = true.
Proof.
  induction s as [|c s IH]; simpl; [done|].
  destruct (isspace c) eqn:Ec; simpl; [done|]. by rewrite Ec.
Qed.

Lemma strip_eq_empty s : strip s = "" <-> blank s = true.
Proof.
  unfold strip. rewrite rstrip_eq_empty. split; [apply blank_lstrip|].
  intros H. apply lstrip_blank in H. by rewrite H.
Qed.

(** The normal form of a status, [s.strip().lower()], is a fixed point of
    the normalisation. *)
Lemma normal_status_idemp s : lower (strip (lower (strip s))) = lower (strip s).
Proof. by rewrite strip_lower, strip_idemp, lower_idemp. Qed.

Lemma startswith_spec p s : startswith p s = true <-> exists post, s = p +:+ post.
Proof.
  revert s. induction p as [|a p IH]; intros s; simpl.
  - split; eauto.
  - destruct s as [|b s]; simpl.
    + split; [discriminate|]. by intros [post H].
    + rewrite andb_true_iff, Ascii.eqb_eq, IH. split.
      * intros [-> [post ->]]. eauto.
      * intros [post H]. injection H as -> ->. eauto.
Qed.

(** [contains] decides [occurs_in]. *)
Lemma contains_spec q t : contains q t = true <-> occurs_in q t.
Proof.
  unfold occurs_in. induction t as [|c t IH].
  - simpl. rewrite orb_false_r, startswith_spec. split.
    + intros [post H]. by exists "", post.
    + intros ([|] & post & H); simpl in H; [eauto|discriminate].
  - cbn [contains]. rewrite orb_true_iff, startswith_spec, IH. split.
    + intros [[post H]|(pre & post & H)].
      * by exists "", post.
      * exists (String c pre), post. simpl. by rewrite H.
    + intros ([|c' pre] & post & H); simpl in H.
      * left. eauto.
      * right. injection H as -> H. eauto.
Qed.

Lemma contains_empty t : contains "" t = true.
Proof. apply contains_spec. by exists "", t. Qed.

End StrFacts.

#[global] Instance occurs_in_dec q t : Decision (occurs_in q t).
Proof.
  refine (cast_if (decide (contains q t = true))); by rewrite <-contains_spec.
Defined.

#[global] Instance title_contains_dec q b : Decision (title_contains q b).
Proof. unfold title_contains. apply _. Defined.

#[global] Instance title_matches_dec q b : Decision (title_matches q b).
Proof. unfold title_matches. apply _. Defined.

(** ** The catalog reader stays within its fuel *)

Section Fuel.

Import Load.

Lemma skip_ws_length s : String.length (skip_ws s) <= String.length s.
Proof. induction s as [|c s IH]; simpl; [lia|]. destruct (is_ws c); simpl; lia. Qed.

Lemma scanstring_length_bounded n s x r :
  String.length s <= n -> scanstring s = Ok (x, r) -> String.length r < String.length s.
Proof.
  revert s x r. induction n as [|n IH]; intros s x r Hn.
  { destruct s; simpl in *; [done|lia]. }
  destruct s as [|c s]; simpl; [done|].
  unfold mbind, result_bind, rbind, push.
  repeat case_match; simplify_eq/=; try done.
  all: intros [= <- <-]; simpl in *.
  all: try lia.
  all: repeat match goal with p : (string * string)%type |- _ => destruct p end.
  all: match goal with
       | H : scanstring ?t = Ok (_, _) |- _ =>
           apply IH in H; simpl in *; try lia
       end.
Qed.

Lemma scanstring_length s x r :
  scanstring s = Ok (x, r) -> String.length r < String.length s.
Proof. by apply (scanstring_length_bounded (String.length s)). Qed.

Lemma digits_length s ds r : digits s = (ds, r) -> String.length r <= String.length s.
Proof.
  revert ds r. induction s as [|c s IH]; intros ds r; simpl.
  - intros [= <- <-]. simpl. lia.
  - destruct (is_digit c).
    + destruct (digits s) as [ds' r'] eqn:E. intros [= <- <-].
      specialize (IH _ _ eq_refl). lia.
    + intros [= <- <-]. simpl. lia.
Qed.

Lemma digits_head_length c s ds r :
  is_digit c = true -> digits (String c s) = (ds, r) ->
  String.length r <= String.length s.
Proof.
  intros Hc. simpl. rewrite Hc. destruct (digits s) as [ds' r'] eqn:E.
  intros [= <- <-]. by apply digits_length in E.
Qed.

Lemma after_length p s r :
  after p s = Some r ->
  String.length r <= String.length s
  /\ (p <> "" -> String.length r < String.length s).
Proof.
  revert s r. induction p as [|a p IH]; intros s r; simpl.
  - intros [= <-]. split; [lia|done].
  - destruct s as [|b s]; [done|]. destruct (Ascii.eqb a b); [|done].
    intros H%IH. simpl. split; [lia|]. intros _. lia.
Qed.

Lemma fraction_length s f r : fraction s = (f, r) -> String.length r <= String.length s.
Proof.
  unfold fraction. repeat case_match; simplify_eq; intros [= <- <-]; simpl; try lia.
  all: match goal with
       | H : digits _ = _ |- _ => apply digits_length in H; simpl in *; lia
       end.
Qed.

Lemma exponent_length s f r : exponent s = (f, r) -> String.length r <= String.length s.
Proof.
  unfold exponent. repeat case_match; simplify_eq; intros [= <- <-]; simpl; try lia.
  all: match goal with
       | H : digits _ = _ |- _ => apply digits_length in H; simpl in *; lia
       end.
Qed.

Lemma match_number_length s v r :
  match_number s = Ok (v, r) -> String.length r < String.length s.
Proof.
  unfold match_number. repeat case_match; simplify_eq; intros [= <- <-].
  all: repeat match goal with
       | Hd : is_digit ?c = true, H : digits (String ?c _) = _ |- _ =>
           apply (digits_head_length _ _ _ _ Hd) in H
       | H : digits _ = _ |- _ => apply digits_length in H
       | H : fraction _ = _ |- _ => apply fraction_length in H
       | H : exponent _ = _ |- _ => apply exponent_length in H
       end; simpl in *; lia.
Qed.

Lemma constant_or_number_length s v r :
  constant_or_number s = Ok (v, r) -> String.length r < String.length s.
Proof.
  unfold constant_or_number. repeat case_match; simplify_eq.
  all: try (intros [= <- <-]).
  all: try apply match_number_length.
  all: match goal with
       | H : after _ _ = Some _ |- _ =>
           apply after_length in H as [_ H]; apply H; discriminate
       end.
Qed.

Lemma within_fuel_weaken s s' res :
  String.length s' <= String.length s -> within_fuel s' res -> within_fuel s res.
Proof. destruct res as [[v r]|e]; simpl; [lia|done]. Qed.

Lemma scanstring_within_fuel s :
  match scanstring s with
  | Ok (x, r) => String.length r < String.length s
  | Raise e => e <> OutOfFuel
  end.
Proof.
  destruct (scanstring s) as [[x r]|e] eqn:E; [by apply scanstring_length in E|].
  revert e E.
  induction s as [s IH] using (induction_ltof1 _ String.length).
  unfold ltof in IH.
  intros e. destruct s as [|c s]; simpl; [by intros [= <-]|].
  unfold mbind, result_bind, rbind.
  repeat case_match; simplify_eq; try (by intros [= <-]); try done.
  all: intros [= <-].
  all: match goal with
       | H : scanstring ?t = Raise _ |- _ => apply IH in H; [done|simpl; lia]
       end.
Qed.

Lemma constant_or_number_within_fuel s : within_fuel s (constant_or_number s).
Proof.
  unfold within_fuel. destruct (constant_or_number s) as [[v r]|e] eqn:E.
  - by apply constant_or_number_length in E.
  - unfold constant_or_number, match_number in E.
    repeat case_match; simplify_eq; done.
Qed.

Lemma scan_fuel over :
  over <> OutOfFuel ->
  forall fuel,
    (forall room s,
       2 * String.length s + 1 <= fuel -> within_fuel s (scan_once over fuel room s))
    /\ (forall room acc s,
          2 * String.length s + 2 <= fuel ->
          within_fuel s (members over fuel room acc s))
    /\ (forall room acc s,
          2 * String.length s + 2 <= fuel ->
          within_fuel s (elements over fuel room acc s)).
Proof.
  intros Hover. induction fuel as [|fuel (IHs & IHm & IHe)].
  { repeat split; intros; lia. }
  split; [|split].
  - intros room s Hf. destruct s as [|c r]; simpl; [done|].
    destruct (code c =? 34)%N.
    { pose proof (scanstring_within_fuel r) as Hg. unfold mbind, result_bind, rbind.
      destruct (scanstring r) as [[x r']|e]; simpl; [lia|done]. }
    destruct (code c =? 123)%N.
    { destruct room as [|room]; [done|].
      pose proof (skip_ws_length r) as Hl.
      destruct (skip_ws r) as [|c' r'] eqn:E; simpl; [done|].
      destruct (code c' =? 125)%N; simpl; [simpl in Hl; lia|].
      eapply within_fuel_weaken; [|apply IHm]; simpl in *; lia. }
    destruct (code c =? 91)%N.
    { destruct room as [|room]; [done|].
      pose proof (skip_ws_length r) as Hl.
      destruct (skip_ws r) as [|c' r'] eqn:E; simpl; [done|].
      destruct (code c' =? 93)%N; simpl; [simpl in Hl; lia|].
      eapply within_fuel_weaken; [|apply IHe]; simpl in *; lia. }
    apply constant_or_number_within_fuel.
  - intros room acc s Hf. destruct s as [|c r]; simpl; [done|].
    destruct (code c =? 34)%N; [|done].
    pose proof (scanstring_within_fuel r) as Hg. unfold mbind, result_bind, rbind.
    destruct (scanstring r) as [[k r1]|e]; [|done]. simpl.
    pose proof (skip_ws_length r1) as Hl1.
    destruct (skip_ws r1) as [|colon r2] eqn:E1; [done|].
    destruct (code colon =? 58)%N; [|done].
    pose proof (skip_ws_length r2) as Hl2.
    assert (within_fuel (skip_ws r2) (scan_once over fuel room (skip_ws r2))) as Hv.
    { apply IHs. simpl in *. lia. }
    destruct (scan_once over fuel room (skip_ws r2)) as [[v r3]|e]; [|done].
    simpl in Hv |- *.
    pose proof (skip_ws_length r3) as Hl3.
    destruct (skip_ws r3) as [|c2 r4] eqn:E3; [done|].
    destruct (code c2 =? 125)%N; [simpl in *; lia|].
    destruct (code c2 =? 44)%N; [|done].
    pose proof (skip_ws_length r4) as Hl4.
    eapply within_fuel_weaken; [|apply IHm]; simpl in *; lia.
  - intros room acc s Hf. simpl. unfold mbind, result_bind, rbind.
    assert (within_fuel s (scan_once over fuel room s)) as Hv by (apply IHs; lia).
    destruct (scan_once over fuel room s) as [[v r3]|e]; [|done]. simpl in Hv |- *.
    pose proof (skip_ws_length r3) as Hl3.
    destruct (skip_ws r3) as [|c2 r4] eqn:E3; [done|].
    destruct (code c2 =? 93)%N; [simpl in *; lia|].
    destruct (code c2 =? 44)%N; [|done].
    pose proof (skip_ws_length r4) as Hl4.
    eapply within_fuel_weaken; [|apply IHe]; simpl in *; lia.
Qed.

Lemma decode_fuel over room raw :
  over <> OutOfFuel -> decode over room raw <> Raise OutOfFuel.
Proof.
  intros Hover. unfold decode, mbind, result_bind, rbind.
  pose proof (skip_ws_length raw) as Hl.
  assert (within_fuel (skip_ws raw)
            (scan_once over (2 * String.length raw + 2) room (skip_ws raw))) as Hg.
  { apply scan_fuel; [done|lia]. }
  destruct (scan_once _ _ _ _) as [[v r]|e]; simpl in *.
  - by destruct (skip_ws r).
  - congruence.
Qed.

(** The fuel [json_loads] gives the scanner is never used up. *)
Lemma json_loads_fuel raw : json_loads raw <> Raise OutOfFuel.
Proof.
  unfold json_loads.
  assert (decode NotLatin1 sure_depth raw <> Raise OutOfFuel) as Hsure
    by (by apply decode_fuel).
  destruct (decode RecursionError recursion_limit raw) as [v|e]; [done|].
  by destruct e.
Qed.

End Fuel.

(** ** Book, ReferenceBook and the codec *)

Section Codec.

Implicit Types (b : Book) (c : class) (d : list (string * json)).

Lemma Book_init_str c (t a i s : string) :
  Book_init c (JStr t) (JStr a) (JStr i) (JStr s) = Ok (Book_new c t a i s).
Proof. reflexivity. Qed.

(** What [from_dict] computes once the required keys are there. *)
Lemma from_dict_present d tv av iv :
  dict_get "title" d = Some tv ->
  dict_get "author" d = Some av ->
  dict_get "isbn" d = Some iv ->
  from_dict (JObject d)
  = Book_init (decoded_class d) tv av iv
      (default (JStr "available") (dict_get "status" d)).
Proof.
  intros Ht Ha Hi. unfold from_dict, getitem, decoded_class.
  rewrite Ht, Ha, Hi. simpl.
  by destruct (dict_get "type" d) as [[]|].
Qed.

Lemma from_dict_absent d :
  lacks_required d -> exists k, from_dict (JObject d) = Raise (KeyError k).
Proof.
  unfold lacks_required, from_dict, getitem. intros H.
  destruct (dict_get "title" d); simpl; [|eauto].
  destruct (dict_get "author" d); simpl; [|eauto].
  destruct (dict_get "isbn" d); simpl; [|eauto].
  destruct H as [H|[H|H]]; discriminate.
Qed.

Lemma Book_init_no_KeyError c tv av iv sv k :
  Book_init c tv av iv sv <> Raise (KeyError k).
Proof.
  unfold Book_init.
  destruct tv, av, iv, sv; simpl; discriminate.
Qed.

(** Every book that the constructor builds has trimmed fields and a
    normalised status. *)
Lemma Book_new_trimmed c t a i s :
  let b := Book_new c t a i s in
  trimmed (title b) /\ trimmed (author b) /\ trimmed (isbn b)
  /\ lower (strip (status b)) = status b.
Proof.
  simpl. repeat split; try apply strip_trimmed. apply normal_status_idemp.
Qed.

(** [ReferenceBook.issue] *)
Lemma issue_reference b : cls b = CReferenceBook -> issue b = (false, b).
Proof. unfold issue. by intros ->. Qed.

End Codec.

(** C1.  Decoding the encoding of a valid record gives the record back,
    field for field, for both classes: [from_dict (to_dict r) = r] when
    title, author and identifier are trimmed and not empty and the status
    is [available] or [issued]. *)
Theorem decode_encode (b : Book) :
  valid b -> from_dict (as_json (to_dict b)) = Ok b.
Proof.
  destruct b as [c t a i s].
  intros ((Ht & _) & (Ha & _) & (Hi & _) & Hs). unfold trimmed in *.
  simpl in Ht, Ha, Hi, Hs.
  unfold as_json, to_dict. cbn [map fst snd cls title author isbn status].
  erewrite from_dict_present by reflexivity.
  cbn [dict_get String.eqb Ascii.eqb Bool.eqb default]. unfold id.
  rewrite Book_init_str. unfold Book_new. rewrite Ht, Ha, Hi.
  assert (lower (strip s) = s) as -> by (destruct Hs as [-> | ->]; reflexivity).
  by destruct c.
Qed.

Lemma decode_encode_witness :
  (valid go_book /\ from_dict (as_json (to_dict go_book)) = Ok go_book)
  /\ (valid atlas /\ from_dict (as_json (to_dict atlas)) = Ok atlas).
Proof.
  assert (valid go_book) as Hg.
  { unfold valid, trimmed. simpl. repeat split; auto; discriminate. }
  assert (valid atlas) as Ha.
  { unfold valid, trimmed. simpl. repeat split; auto; discriminate. }
  split; (split; [assumption|]).
  - exact (decode_encode go_book Hg).
  - exact (decode_encode atlas Ha).
Defined.

(** C5.  [issue] on a reference book fails whatever its status and leaves
    the book as it was; on an ordinary book that is available it sets the
    status to [issued] and succeeds; on an ordinary book that is not
    available (already issued) it fails and leaves the book as it was. *)
Theorem issue_spec (b : Book) :
  (cls b = CReferenceBook -> issue b = (false, b))
  /\ (cls b = CBook -> status b = "available" ->
      issue b = (true, set_status b "issued")
      /\ status (snd (issue b)) = "issued")
  /\ (cls b = CBook -> status b <> "available" -> issue b = (false, b)).
Proof.
  split; [apply issue_reference|]. unfold issue, is_available. split.
  - intros -> Hs. by rewrite Hs.
  - intros -> Hs. apply String.eqb_neq in Hs. by rewrite Hs.
Qed.

Lemma issue_spec_witness :
  issue atlas = (false, atlas)
  /\ issue (set_status go_book "available") = (true, go_book)
  /\ issue go_book = (false, go_book).
Proof.
  split; [|split].
  - exact (proj1 (issue_spec atlas) eq_refl).
  - exact (proj1 (proj1 (proj2 (issue_spec (set_status go_book "available")))
                    eq_refl eq_refl)).
  - refine (proj2 (proj2 (issue_spec go_book)) eq_refl _). discriminate.
Defined.

(** C6, as stated, fails: a dictionary that has all of title, author and
    isbn, one of them not a string (here the document
    [{"title": 5, "author": "A", "isbn": "1"}]), is not decoded either. *)
Lemma from_dict_number_title :
  Load.json_loads (doc "{'title': 5, 'author': 'A', 'isbn': '1'}")
  = Ok (JObject sample_number_title)
  /\ from_dict (JObject sample_number_title) = Raise AttributeError
  /\ ~ lacks_required sample_number_title.
Proof.
  split; [vm_compute; reflexivity|]. split; [reflexivity|].
  intros [H|[H|H]]; discriminate.
Qed.

(** C6, amended.  [from_dict] raises [KeyError] exactly when title, author
    or isbn is absent.  When the three are present it succeeds exactly when
    they, and the status if present, are strings, and raises
    [AttributeError] otherwise.  On success the three fields are trimmed,
    the status is the given one trimmed and in lower case, [available] when
    absent, and the class is [ReferenceBook] when [type] is that string and
    [Book] when [type] is absent or anything else. *)
Theorem from_dict_spec (d : list (string * json)) :
  ((exists k, from_dict (JObject d) = Raise (KeyError k)) <-> lacks_required d)
  /\ (forall tv av iv,
        dict_get "title" d = Some tv ->
        dict_get "author" d = Some av ->
        dict_get "isbn" d = Some iv ->
        match tv, av, iv, default (JStr "available") (dict_get "status" d) with
        | JStr t, JStr a, JStr i, JStr s =>
            from_dict (JObject d)
            = Ok {| cls := decoded_class d;
                    title := strip t; author := strip a; isbn := strip i;
                    status := lower (strip s) |}
        | _, _, _, _ => from_dict (JObject d) = Raise AttributeError
        end)
  /\ (dict_get "status" d = None ->
      forall b, from_dict (JObject d) = Ok b -> status b = "available")
  /\ (dict_get "type" d <> Some (JStr "ReferenceBook") ->
      forall b, from_dict (JObject d) = Ok b -> cls b = CBook).
Proof.
  assert (forall tv av iv,
        dict_get "title" d = Some tv ->
        dict_get "author" d = Some av ->
        dict_get "isbn" d = Some iv ->
        match tv, av, iv, default (JStr "available") (dict_get "status" d) with
        | JStr t, JStr a, JStr i, JStr s =>
            from_dict (JObject d)
            = Ok {| cls := decoded_class d;
                    title := strip t; author := strip a; isbn := strip i;
                    status := lower (strip s) |}
        | _, _, _, _ => from_dict (JObject d) = Raise AttributeError
        end) as Hpresent.
  { intros tv av iv Ht Ha Hi. rewrite (from_dict_present d tv av iv Ht Ha Hi).
    destruct tv, av, iv; try reflexivity.
    destruct (default _ _); reflexivity. }
  assert (lacks_required d
          \/ exists tv av iv, dict_get "title" d = Some tv
               /\ dict_get "author" d = Some av /\ dict_get "isbn" d = Some iv)
    as Hcases.
  { unfold lacks_required.
    destruct (dict_get "title" d); [|auto].
    destruct (dict_get "author" d); [|auto].
    destruct (dict_get "isbn" d); [|auto]. right. by do 3 eexists. }
  split; [|split; [exact Hpresent|split]].
  - split; [|apply from_dict_absent].
    intros [k Hk]. destruct Hcases as [?|(tv & av & iv & Ht & Ha & Hi)]; [done|].
    rewrite (from_dict_present d tv av iv Ht Ha Hi) in Hk.
    by apply Book_init_no_KeyError in Hk.
  - intros Hs b Hb.
    destruct Hcases as [Hl|(tv & av & iv & Ht & Ha & Hi)].
    { apply from_dict_absent in Hl as [k Hk]. congruence. }
    specialize (Hpresent tv av iv Ht Ha Hi). rewrite Hs, Hb in Hpresent.
    destruct tv, av, iv; simpl in Hpresent; try discriminate.
    by injection Hpresent as ->.
  - intros Hty b Hb.
    destruct Hcases as [Hl|(tv & av & iv & Ht & Ha & Hi)].
    { apply from_dict_absent in Hl as [k Hk]. congruence. }
    specialize (Hpresent tv av iv Ht Ha Hi). rewrite Hb in Hpresent.
    destruct tv, av, iv; try discriminate.
    destruct (default _ _); try discriminate.
    injection Hpresent as ->. simpl.
    unfold decoded_class. destruct (dict_get "type" d) as [[| | | |ty| |]|]; try done.
    destruct (String.eqb ty "ReferenceBook") eqn:E; [|done].
    apply String.eqb_eq in E. by subst.
Qed.

Lemma from_dict_spec_witness :
  from_dict (JObject sample_minimal) = Ok (mkBook CBook "Go" "A" "111" "available")
  /\ (exists k, from_dict (JObject [("author", JStr "A")]) = Raise (KeyError k)).
Proof.
  split.
  - exact (proj1 (proj2 (from_dict_spec sample_minimal))
             (JStr " Go ") (JStr "A") (JStr "111") eq_refl eq_refl eq_refl).
  - apply (proj2 (proj1 (from_dict_spec [("author", JStr "A")]))).
    left. reflexivity.
Defined.

(** [strip] removes a blank prefix and a blank suffix, and nothing else. *)
Lemma lstrip_decompose s : exists l, s = l +:+ lstrip s /\ blank l = true.
Proof.
  induction s as [|c s (l & IH & Hl)]; simpl.
  - by exists "".
  - destruct (isspace c) eqn:Ec.
    + exists (String c l). split; [|by simpl; rewrite Ec, Hl].
      change (String c s = String c (l +:+ lstrip s)). by rewrite <-IH.
    + by exists "".
Qed.

Lemma rstrip_decompose s : exists r, s = rstrip s +:+ r /\ blank r = true.
Proof.
  induction s as [|c s (r & IH & Hr)]; simpl.
  - by exists "".
  - destruct (rstrip s) as [|d u] eqn:E.
    + change (s = r) in IH. subst s. destruct (isspace c) eqn:Ec.
      * exists (String c r). simpl. by rewrite Ec, Hr.
      * by exists r.
    + exists r. split; [|done].
      change (String c s = String c (String d u +:+ r)). by rewrite <-IH.
Qed.

Lemma strip_decompose s :
  exists l r, s = l +:+ strip s +:+ r /\ blank l = true /\ blank r = true.
Proof.
  destruct (lstrip_decompose s) as (l & Hs & Hl).
  destruct (rstrip_decompose (lstrip s)) as (r & Hm & Hr).
  exists l, r. unfold strip. by rewrite <-Hm, <-Hs.
Qed.

(** C10.  The status a book is constructed with is stored trimmed and in
    lower case, also when [from_dict] passes it on from a dictionary, which
    is decoded rather than refused: ["Issued"] is stored as ["issued"] and
    [" AVAILABLE "] as ["available"].  Trimming removes a blank prefix and a
    blank suffix, and the stored form is a fixed point of the
    normalisation. *)
Theorem status_normalised (c : class) (t a i s : string) :
  Book_init c (JStr t) (JStr a) (JStr i) (JStr s) = Ok (Book_new c t a i s)
  /\ status (Book_new c t a i s) = lower (strip s)
  /\ (exists l r, s = l +:+ strip s +:+ r /\ blank l = true /\ blank r = true)
  /\ lower (strip (status (Book_new c t a i s))) = status (Book_new c t a i s)
  /\ (forall d,
        dict_get "title" d = Some (JStr t) ->
        dict_get "author" d = Some (JStr a) ->
        dict_get "isbn" d = Some (JStr i) ->
        dict_get "status" d = Some (JStr s) ->
        from_dict (JObject d) = Ok (Book_new (decoded_class d) t a i s))
  /\ status (Book_new c t a i "Issued") = "issued"
  /\ status (Book_new c t a i " AVAILABLE ") = "available".
Proof.
  split; [reflexivity|]. split; [reflexivity|].
  split; [apply strip_decompose|].
  split; [apply normal_status_idemp|].
  split; [|split; reflexivity].
  intros d Ht Ha Hi Hs.
  rewrite (from_dict_present d _ _ _ Ht Ha Hi), Hs. reflexivity.
Qed.

Lemma status_normalised_witness :
  from_dict (JObject sample_shouting)
  = Ok (mkBook CBook "Go" "A" "111" "available").
Proof.
  exact (proj1 (proj2 (proj2 (proj2 (proj2
           (status_normalised CBook "Go" "A" "111" " AVAILABLE ")))))
           sample_shouting eq_refl eq_refl eq_refl eq_refl).
Defined.

(** ** The inventory *)

Section Inventory.

Implicit Types (b book : Book) (bs : list Book) (st : state) (q : string).

Lemma first_with_isbn_None q bs : first_with_isbn q bs = None <-> q ∉ ids bs.
Proof.
  unfold ids. induction bs as [|b bs IH]; simpl.
  - split; [intros _; apply not_elem_of_nil|done].
  - rewrite not_elem_of_cons. destruct (String.eqb (isbn b) q) eqn:E.
    + apply String.eqb_eq in E. split; [done|]. intros [H _]. by destruct H.
    + apply String.eqb_neq in E.
      destruct (first_with_isbn q bs) as [[i b']|]; simpl.
      * split; [done|]. intros [_ H]. by apply IH in H.
      * split; [|done]. intros _. split; [congruence|]. by apply IH.
Qed.

Lemma first_with_isbn_Some q bs i b :
  first_with_isbn q bs = Some (i, b) -> bs !! i = Some b /\ isbn b = q.
Proof.
  revert i. induction bs as [|b' bs IH]; intros i; simpl; [done|].
  destruct (String.eqb (isbn b') q) eqn:E.
  - apply String.eqb_eq in E. intros [= <- <-]. done.
  - destruct (first_with_isbn q bs) as [[j b'']|]; simpl; [|done].
    intros [= <- <-]. simpl. by apply IH.
Qed.

Lemma add_book_eq book st :
  add_book book st
  = match first_with_isbn (strip (isbn book)) (books st) with
    | Some (i, b) =>
        (Ok false,
         logger (InfoDuplicate (isbn book)) (logger (InfoIsbnFound (isbn book) b) st))
    | None =>
        (Ok true,
         logger (InfoAdded book)
           (set_books (books st ++ [book])
              (logger (InfoIsbnNothing (isbn book)) st)))
    end.
Proof.
  unfold add_book, mbind, M_bind, bind, search_by_isbn.
  by destruct (first_with_isbn _ _) as [[i b]|].
Qed.

Lemma filter_id_absent i bs : i ∉ ids bs -> filter (fun b => isbn b = i) bs = [].
Proof.
  unfold ids. induction bs as [|b bs IH]; [done|].
  rewrite fmap_cons, not_elem_of_cons. intros [Hne Hi].
  rewrite filter_cons_False by congruence. by apply IH.
Qed.

(** Among books with distinct identifiers, an identifier that is held is
    held by one book. *)
Lemma unique_ids_one i bs :
  unique_ids bs -> i ∈ ids bs ->
  exists b, filter (fun b => isbn b = i) bs = [b] /\ b ∈ bs.
Proof.
  unfold unique_ids, ids. induction bs as [|b bs IH].
  - intros _ H. by apply elem_of_nil in H.
  - rewrite fmap_cons. intros [Hb Hbs]%NoDup_cons Hi.
    destruct (decide (isbn b = i)) as [<-|Hne].
    + exists b. split; [|apply list_elem_of_here].
      rewrite filter_cons_True by done. f_equal. by apply filter_id_absent.
    + rewrite filter_cons_False by done.
      apply elem_of_cons in Hi as [Hi|Hi]; [congruence|].
      destruct (IH Hbs Hi) as (b' & Hf & Hin).
      exists b'. split; [done|]. by apply list_elem_of_further.
Qed.

(** [add_book] keeps the identifiers distinct. *)
Lemma add_book_unique book st :
  trimmed (isbn book) -> unique_ids (books st) ->
  unique_ids (books (snd (add_book book st))).
Proof.
  intros Ht Hu. rewrite add_book_eq, Ht.
  destruct (first_with_isbn _ _) as [[i b]|] eqn:E; [done|].
  apply first_with_isbn_None in E. simpl.
  unfold unique_ids, ids in *. rewrite fmap_app. apply NoDup_app.
  split; [done|]. split; [|apply NoDup_singleton].
  intros x Hx [->|H]%elem_of_cons; [done|]. by apply elem_of_nil in H.
Qed.

Lemma unique_ids_nil : unique_ids [].
Proof. apply NoDup_nil_2. Qed.

End Inventory.

(** C3, as stated, fails: [load_catalog] does not check identifiers, so a
    store can hold two books with one identifier.  [add_book] of a third
    such book is refused and leaves the store as it was, which then holds
    two books with that identifier, not one. *)
Lemma add_book_after_duplicates :
  let st := snd (load_catalog (on_disk twice_111 [])) in
  fst (load_catalog (on_disk twice_111 [])) = Ok true
  /\ ids (books st) = ["111"; "111"]
  /\ fst (add_book gopher st) = Ok false
  /\ books (snd (add_book gopher st)) = books st
  /\ count_id (isbn gopher) (books (snd (add_book gopher st))) = 2.
Proof. repeat split; vm_compute; reflexivity. Qed.

(** C3, amended.  When a book of the store already has the identifier of
    the book given, [add_book] returns [False] without raising and leaves
    [books] as it was; a store whose identifiers are distinct (as [add_book]
    keeps them) then holds exactly one book with that identifier, one that
    was there before.  Otherwise [add_book] appends the book and returns
    [True].  The book given is one the constructor built: its identifier is
    trimmed. *)
Theorem add_book_spec (book : Book) (st : state) :
  trimmed (isbn book) ->
  (isbn book ∈ ids (books st) ->
     fst (add_book book st) = Ok false
     /\ books (snd (add_book book st)) = books st
     /\ (unique_ids (books st) ->
         count_id (isbn book) (books (snd (add_book book st))) = 1
         /\ exists first i,
              filter (fun b => isbn b = isbn book) (books (snd (add_book book st)))
              = [first]
              /\ books st !! i = Some first))
  /\ (isbn book ∉ ids (books st) ->
      fst (add_book book st) = Ok true
      /\ books (snd (add_book book st)) = (books st ++ [book])%list).
Proof.
  intros Ht. rewrite add_book_eq, Ht. split.
  - intros Hin.
    destruct (first_with_isbn _ _) as [[i b]|] eqn:E.
    2:{ apply first_with_isbn_None in E. done. }
    simpl. split; [done|]. split; [done|]. intros Hu.
    destruct (unique_ids_one _ _ Hu Hin) as (first & Hf & Hfirst).
    unfold count_id. rewrite Hf. split; [done|].
    apply list_elem_of_lookup in Hfirst as [j Hj]. eauto.
  - intros Hout. apply first_with_isbn_None in Hout. by rewrite Hout.
Qed.

Lemma add_book_spec_witness :
  let st := shelf [go_book] in
  (fst (add_book gopher st) = Ok false
   /\ books (snd (add_book gopher st)) = [go_book]
   /\ count_id "111" (books (snd (add_book gopher st))) = 1)
  /\ (fst (add_book atlas st) = Ok true
      /\ books (snd (add_book atlas st)) = [go_book; atlas]).
Proof.
  intros st.
  destruct (add_book_spec gopher st eq_refl) as [Hdup _].
  destruct (add_book_spec atlas st eq_refl) as [_ Hnew].
  split.
  - destruct Hdup as (Hr & Hb & Hone); [apply list_elem_of_here|].
    split; [exact Hr|]. split; [exact Hb|].
    apply Hone. apply NoDup_singleton.
  - apply Hnew. unfold st. simpl.
    intros [H|H]%elem_of_cons; [discriminate|]. by apply elem_of_nil in H.
Defined.

Lemma filter_all {A} (P : A -> Prop) `{!forall x, Decision (P x)} (l : list A) :
  (forall x, P x) -> filter P l = l.
Proof.
  intros HP. induction l as [|x l IH]; [done|].
  rewrite filter_cons_True by done. by rewrite IH.
Qed.

(** C8, as stated, fails: the query is trimmed before it is looked for.
    [" go"] does not occur in the title ["Go"], letter case aside, and the
    search returns the book all the same. *)
Lemma search_by_title_trims_query :
  ~ title_contains " go" go_book
  /\ filter (title_contains " go") (books (shelf [go_book])) = []
  /\ fst (search_by_title " go" (shelf [go_book])) = Ok [go_book].
Proof.
  assert (~ title_contains " go" go_book) as H.
  { unfold title_contains. rewrite <-contains_spec. discriminate. }
  split; [exact H|]. split; [|reflexivity].
  simpl. by rewrite filter_cons_False, filter_nil.
Qed.

(** C8, amended.  [search_by_title] returns, in store order, exactly the
    books whose title holds the trimmed query as a run of characters,
    letter case aside, and leaves the store as it was; a query that is
    empty or blank therefore returns every book, in store order. *)
Theorem search_by_title_spec (title_query : string) (st : state) :
  fst (search_by_title title_query st)
  = Ok (filter (title_matches title_query) (books st))
  /\ books (snd (search_by_title title_query st)) = books st
  /\ (strip title_query = "" ->
      fst (search_by_title title_query st) = Ok (books st)).
Proof.
  assert (fst (search_by_title title_query st)
          = Ok (filter (title_matches title_query) (books st))) as Hr.
  { unfold search_by_title. simpl. f_equal.
    apply list_filter_iff. intros b. apply contains_spec. }
  split; [exact Hr|]. split; [reflexivity|].
  intros Hq. rewrite Hr. f_equal. apply filter_all.
  intros b. unfold title_matches. rewrite Hq. apply contains_spec, contains_empty.
Qed.

Lemma search_by_title_spec_witness :
  fst (search_by_title "" (shelf three_books)) = Ok [go_book; atlas; gopher]
  /\ fst (search_by_title "  " (shelf three_books)) = Ok [go_book; atlas; gopher].
Proof.
  split.
  - exact (proj2 (proj2 (search_by_title_spec "" (shelf three_books))) eq_refl).
  - exact (proj2 (proj2 (search_by_title_spec "  " (shelf three_books))) eq_refl).
Defined.

(** ** Invariants of the books through the command-line helpers *)

Section Keeps.

Context (I : state -> Prop).

Lemma keeps_ret {A} (a : A) (Q : A -> Prop) : Q a -> keeps I (mret a) Q.
Proof. intros HQ st HI. split; [done|]. by intros a' [= <-]. Qed.

Lemma keeps_bind {A B} (m : M A) (k : A -> M B) (Q : A -> Prop) (R : B -> Prop) :
  keeps I m Q -> (forall a, Q a -> keeps I (k a) R) -> keeps I (m ≫= k) R.
Proof.
  intros Hm Hk st HI. unfold mbind, M_bind, bind.
  destruct (Hm st HI) as [HI' HQ]. destruct (m st) as [[a|e] st']; simpl in *.
  - exact (Hk a (HQ a eq_refl) st' HI').
  - split; [done|]. discriminate.
Qed.

Lemma keeps_weaken {A} (m : M A) (Q R : A -> Prop) :
  keeps I m Q -> (forall a, Q a -> R a) -> keeps I m R.
Proof.
  intros Hm HQR st HI. destruct (Hm st HI) as [HI' HQ]. split; [done|].
  intros a Ha. by apply HQR, HQ.
Qed.

Lemma keeps_try_except {A} (body : M A) (handler : exn -> M A) (Q : A -> Prop) :
  keeps I body Q -> (forall e, keeps I (handler e) Q) ->
  keeps I (try_except body handler) Q.
Proof.
  intros Hb Hh st HI. unfold try_except.
  destruct (Hb st HI) as [HI' HQ]. destruct (body st) as [[a|e] st']; simpl in *.
  - done.
  - destruct e; try (by apply Hh); (split; [done|discriminate]).
Qed.

End Keeps.

Section BooksInvariant.

(** A property of each book of the store that a new book has, and that
    [issue] and [return_book] keep. *)
Context (P : Book -> Prop).

Lemma keeps_tell_books (f : state -> state) :
  (forall st, books (f st) = books st) ->
  keeps (all_books P) (tell f) (fun _ => True).
Proof.
  intros Hf st HI. unfold all_books, tell. simpl. by rewrite Hf.
Qed.

Lemma keeps_print line : keeps (all_books P) (print line) (fun _ => True).
Proof. by apply keeps_tell_books. Qed.

Lemma keeps_logger r : keeps (all_books P) (tell (logger r)) (fun _ => True).
Proof. by apply keeps_tell_books. Qed.

Lemma keeps_input text : keeps (all_books P) (input text) (fun _ => True).
Proof.
  intros st HI. unfold input. simpl. by destruct (stdin st).
Qed.

Lemma input_nonempty_loop_books prompt lines st :
  books (snd (input_nonempty_loop prompt lines st)) = books st.
Proof.
  revert st. induction lines as [|l ls IH]; intros st; simpl; [done|].
  destruct (strip l); [|done]. by rewrite IH.
Qed.

Lemma input_nonempty_loop_value prompt lines st v :
  fst (input_nonempty_loop prompt lines st) = Ok v -> v <> "" /\ trimmed v.
Proof.
  revert st. induction lines as [|l ls IH]; intros st; simpl; [done|].
  destruct (strip l) as [|c r] eqn:E; [apply IH|].
  simpl. intros [= <-]. split; [done|]. rewrite <-E. apply strip_trimmed.
Qed.

Lemma keeps_input_nonempty prompt :
  keeps (all_books P) (input_nonempty prompt) (fun v => v <> "" /\ trimmed v).
Proof.
  intros st HI. unfold input_nonempty, all_books. split.
  - by rewrite input_nonempty_loop_books.
  - intros v. apply input_nonempty_loop_value.
Qed.

Lemma keeps_search_by_isbn q :
  keeps (all_books P) (search_by_isbn q)
    (fun found => forall i b, found = Some (i, b) -> P b).
Proof.
  intros st HI. unfold search_by_isbn.
  destruct (first_with_isbn _ _) as [[i b]|] eqn:E; simpl.
  - split; [done|]. intros ? [= <-] ? ? [= <- <-].
    apply first_with_isbn_Some in E as [E _].
    unfold all_books in HI. rewrite Forall_lookup in HI. by eapply HI.
  - split; [done|]. by intros ? [= <-].
Qed.

Lemma keeps_add_book book :
  P book -> keeps (all_books P) (add_book book) (fun _ => True).
Proof.
  intros HP st HI. rewrite add_book_eq.
  destruct (first_with_isbn _ _) as [[i b]|]; simpl; [done|].
  split; [|done]. unfold all_books. simpl. apply Forall_app. split; [done|].
  by apply Forall_singleton.
Qed.

Lemma keeps_store_book i b :
  P b -> keeps (all_books P) (store_book i b) (fun _ => True).
Proof.
  intros HP st HI. unfold store_book, tell, all_books. simpl. split; [|done].
  by apply Forall_insert.
Qed.

End BooksInvariant.

Section CliInvariant.

Context (P : Book -> Prop).

Hypothesis P_new :
  forall c t a i,
    t <> "" /\ trimmed t -> a <> "" /\ trimmed a -> i <> "" /\ trimmed i ->
    P (Book_new c t a i "available").
Hypothesis P_issue : forall b, P b -> P (snd (issue b)).
Hypothesis P_return : forall b, P b -> P (snd (return_book b)).

Lemma keeps_add_book_cli : keeps (all_books P) add_book_cli (fun _ => True).
Proof.
  unfold add_book_cli.
  eapply keeps_bind; [apply keeps_print|intros _ _].
  eapply keeps_bind; [apply keeps_input_nonempty|intros t Ht].
  eapply keeps_bind; [apply keeps_input_nonempty|intros a Ha].
  eapply keeps_bind; [apply keeps_input_nonempty|intros i Hi].
  eapply keeps_bind; [apply keeps_input|intros answer _].
  eapply keeps_bind.
  - apply keeps_add_book. destruct (String.eqb _ _); by apply P_new.
  - intros [] _; apply keeps_print.
Qed.

Lemma keeps_issue_book_cli : keeps (all_books P) issue_book_cli (fun _ => True).
Proof.
  unfold issue_book_cli.
  eapply keeps_bind; [apply keeps_print|intros _ _].
  eapply keeps_bind; [apply keeps_input_nonempty|intros q _].
  eapply keeps_bind; [apply keeps_search_by_isbn|intros found Hfound].
  destruct found as [[i book]|]; [|apply keeps_print].
  destruct (is_reference book); [apply keeps_print|].
  specialize (P_issue book (Hfound i book eq_refl)).
  destruct (issue book) as [issued book'].
  eapply keeps_bind; [by apply keeps_store_book|intros _ _].
  destruct issued; [|apply keeps_print].
  eapply keeps_bind; [apply keeps_logger|intros _ _]. apply keeps_print.
Qed.

Lemma keeps_return_book_cli : keeps (all_books P) return_book_cli (fun _ => True).
Proof.
  unfold return_book_cli.
  eapply keeps_bind; [apply keeps_print|intros _ _].
  eapply keeps_bind; [apply keeps_input_nonempty|intros q _].
  eapply keeps_bind; [apply keeps_search_by_isbn|intros found Hfound].
  destruct found as [[i book]|]; [|apply keeps_print].
  specialize (P_return book (Hfound i book eq_refl)).
  destruct (return_book book) as [returned book'].
  eapply keeps_bind; [by apply keeps_store_book|intros _ _].
  destruct returned; [|apply keeps_print].
  eapply keeps_bind; [apply keeps_logger|intros _ _]. apply keeps_print.
Qed.

Lemma keeps_write_file path text :
  keeps (all_books P) (write_file path text) (fun _ => True).
Proof.
  intros st HI. unfold write_file. by destruct (decide _).
Qed.

Lemma keeps_save_catalog : keeps (all_books P) save_catalog (fun _ => True).
Proof.
  intros st HI. unfold save_catalog. apply keeps_try_except; [| |exact HI].
  - eapply keeps_bind; [apply keeps_write_file|intros _ _].
    eapply keeps_bind; [apply keeps_logger|intros _ _]. by apply keeps_ret.
  - intros e. eapply keeps_bind; [apply keeps_logger|intros _ _].
    by apply keeps_ret.
Qed.

End CliInvariant.

(** ** Reference books *)

Section Transitions.

Implicit Types (b : Book).

Lemma issue_cases b :
  snd (issue b) = b \/ (cls b = CBook /\ snd (issue b) = set_status b "issued").
Proof.
  unfold issue. destruct (cls b) eqn:E; [|by left].
  destruct (is_available b); [by right|by left].
Qed.

Lemma return_book_status b : status (snd (return_book b)) = "available".
Proof.
  unfold return_book, is_available.
  destruct (String.eqb (status b) "available") eqn:E; simpl; [|done].
  by apply String.eqb_eq.
Qed.

Lemma return_book_cases b :
  snd (return_book b) = b \/ snd (return_book b) = set_status b "available".
Proof. unfold return_book. destruct (negb _); [by right|by left]. Qed.

Lemma reference_available_issue b :
  reference_available b -> reference_available (snd (issue b)).
Proof.
  destruct (issue_cases b) as [->|[Hc ->]]; [done|].
  intros _ Hr. simpl in Hr. congruence.
Qed.

Lemma reference_available_return b :
  reference_available b -> reference_available (snd (return_book b)).
Proof. intros _ _. apply return_book_status. Qed.

Lemma named_issue b : named b -> named (snd (issue b)).
Proof. by destruct (issue_cases b) as [->|[_ ->]]. Qed.

Lemma named_return b : named b -> named (snd (return_book b)).
Proof. by destruct (return_book_cases b) as [->| ->]. Qed.

End Transitions.

(** C2, as stated, fails: construction and decoding keep the status they
    are given, whatever the class.  A catalog that records a reference book
    as issued loads as a reference book whose status is [issued]. *)
Lemma reference_book_loaded_issued :
  let st :=
    on_disk
      (doc "[{'title':'Atlas','author':'B','isbn':'222','status':'issued','type':'ReferenceBook'}]")
      [] in
  fst (load_catalog st) = Ok true
  /\ books (snd (load_catalog st)) = [issued_atlas]
  /\ Book_new CReferenceBook "Atlas" "B" "222" "issued" = issued_atlas
  /\ ~ reference_available issued_atlas.
Proof.
  repeat split; try (vm_compute; reflexivity).
  intros H. specialize (H eq_refl). discriminate.
Qed.

(** C2, amended.  [issue] never changes a reference book, and [return_book]
    leaves any book available: neither can make a reference book issued,
    and a store whose reference books are all available stays so through
    the issue, return, add and save helpers.  Construction, and with it
    decoding and loading, stores the status it is given, trimmed and in
    lower case: a reference book it builds is available exactly when that
    status is [available]. *)
Theorem reference_books_stay_available :
  (forall b, cls b = CReferenceBook -> issue b = (false, b))
  /\ (forall b, status (snd (return_book b)) = "available"
               /\ cls (snd (return_book b)) = cls b)
  /\ (forall st,
        Forall reference_available (books st) ->
        Forall reference_available (books (snd (issue_book_cli st)))
        /\ Forall reference_available (books (snd (return_book_cli st)))
        /\ Forall reference_available (books (snd (add_book_cli st)))
        /\ Forall reference_available (books (snd (save_catalog st))))
  /\ (forall t a i s,
        reference_available (Book_new CReferenceBook t a i s)
        <-> lower (strip s) = "available").
Proof.
  split; [apply issue_reference|]. split.
  { intros b. split; [apply return_book_status|].
    by destruct (return_book_cases b) as [->| ->]. }
  split.
  - intros st Hst.
    assert (forall c t a i,
              t <> "" /\ trimmed t -> a <> "" /\ trimmed a -> i <> "" /\ trimmed i ->
              reference_available (Book_new c t a i "available")) as Hnew.
    { intros c t a i _ _ _ _. reflexivity. }
    repeat split.
    + by apply (keeps_issue_book_cli _ reference_available_issue st).
    + by apply (keeps_return_book_cli _ reference_available_return st).
    + by apply (keeps_add_book_cli _ Hnew st).
    + by apply (keeps_save_catalog reference_available st).
  - intros t a i s. unfold reference_available. simpl. intuition.
Qed.

Lemma reference_books_stay_available_witness :
  let st := desk [atlas; go_book] ["222"] in
  Forall reference_available (books st)
  /\ Forall reference_available (books (snd (issue_book_cli st)))
  /\ books (snd (issue_book_cli st)) = [atlas; go_book].
Proof.
  intros st.
  assert (Forall reference_available (books st)) as Hst.
  { repeat constructor. intros H. discriminate H. }
  split; [exact Hst|]. split; [|reflexivity].
  exact (proj1 (proj1 (proj2 (proj2 reference_books_stay_available)) st Hst)).
Defined.

(** ** Empty fields *)

(** C9, as stated, fails: the constructor validates nothing.  A title of
    white space only is trimmed to the empty title, the book is built, and
    [add_book] takes it into the store. *)
Lemma blank_title_reaches_store :
  Book_init CBook (JStr "   ") (JStr "A") (JStr "1") (JStr "available") = Ok untitled
  /\ title untitled = ""
  /\ fst (add_book untitled (shelf [])) = Ok true
  /\ books (snd (add_book untitled (shelf []))) = [untitled].
Proof. repeat split. Qed.

(** C9, amended.  Construction never fails on text: it trims title, author
    and identifier and keeps the result even when empty, so a blank title,
    author or identifier gives a book with that field empty.  Emptiness is
    refused only by the prompt [input_nonempty], which returns nothing but
    trimmed text that is not empty; the books that [add_book_cli] builds
    from it therefore have a title, an author and an identifier. *)
Theorem construction_accepts_empty :
  (forall c t a i s,
     Book_init c (JStr t) (JStr a) (JStr i) (JStr s) = Ok (Book_new c t a i s)
     /\ title (Book_new c t a i s) = strip t
     /\ author (Book_new c t a i s) = strip a
     /\ isbn (Book_new c t a i s) = strip i)
  /\ (forall t, blank t = true <-> strip t = "")
  /\ (forall prompt st v,
        fst (input_nonempty prompt st) = Ok v -> v <> "" /\ trimmed v)
  /\ (forall st,
        Forall named (books st) -> Forall named (books (snd (add_book_cli st)))).
Proof.
  split; [by intros|]. split; [intros t; symmetry; apply strip_eq_empty|].
  split; [intros prompt st v; apply input_nonempty_loop_value|].
  intros st Hst.
  refine (proj1 (keeps_add_book_cli named _ st Hst)).
  intros c t a i [Ht Ht'] [Ha Ha'] [Hi Hi']. unfold named, trimmed in *. simpl.
  by rewrite Ht', Ha', Hi'.
Qed.

Lemma construction_accepts_empty_witness :
  let st := desk [go_book] ["  "; "Atlas"; "B"; "222"; "y"] in
  Forall named (books st)
  /\ Forall named (books (snd (add_book_cli st)))
  /\ books (snd (add_book_cli st)) = [go_book; atlas].
Proof.
  intros st.
  assert (Forall named (books st)) as Hst.
  { repeat constructor; discriminate. }
  split; [exact Hst|]. split; [|reflexivity].
  exact (proj2 (proj2 (proj2 construction_accepts_empty)) st Hst).
Defined.

(** ** Loading a corrupted catalog *)



(** Not every unreadable catalog is a corrupted one.  Two thousand opening
    brackets, or an array that starts with a numeral of 4301 digits, make
    [json.loads] raise [RecursionError] or [ValueError]: [load_catalog]
    asks nothing, touches no file, and returns [False] with no book. *)
Lemma load_catalog_beyond_limits :
  let deep := on_disk (repeated 2000 "[" "") ["R"] in
  let long := on_disk (String "[" (repeated 4301 "1" "")) ["B"] in
  (fst (load_catalog deep) = Ok false
   /\ stdin (snd (load_catalog deep)) = ["R"]
   /\ stdout (snd (load_catalog deep)) = [PrintUnexpected RecursionError]
   /\ files (snd (load_catalog deep)) = files deep)
  /\ (fst (load_catalog long) = Ok false
      /\ stdin (snd (load_catalog long)) = ["B"]
      /\ stdout (snd (load_catalog long)) = [PrintUnexpected ValueError]
      /\ files (snd (load_catalog long)) = files long)
  /\ Load.json_loads (repeated 4300 "1" "") <> Raise ValueError.
Proof.
  repeat split; try (vm_compute; reflexivity). vm_compute. discriminate.
Qed.



(** ** Add, issue, save, load *)

Lemma scenario_document_loads :
  Load.json_loads scenario_document = Ok scenario_value.
Proof. vm_compute. reflexivity. Qed.

Lemma scenario_text_loads : Load.json_loads scenario_text = Ok scenario_value.
Proof. vm_compute. reflexivity. Qed.

Lemma scenario_text_dumped : Dump.dump_indent 2 [to_dict go_book] = scenario_text.
Proof. vm_compute. reflexivity. Qed.

(** C7.  From an inventory on a path with no file, adding the book
    ["Go"] by ["A"] with identifier ["111"] as an ordinary book and issuing
    ["111"] succeeds, and saving writes [scenario_text], the array
    [[{"title":"Go","author":"A","isbn":"111","status":"issued","type":"Book"}]]
    laid out with an indent of two: both texts read as the same value, with
    the identifier under [isbn], the class name under [type] and the status
    in lower case.  A new inventory on that file holds the one book, with
    status [issued], and it has it from the file: whatever books are in
    memory before, and in a store that shares nothing with the first but
    the files, or holds the array on one line, it ends with that one book,
    and with none when the file is missing or another path is given. *)
Theorem add_issue_save_load :
  let st1 := snd (scenario scenario_start) in
  fst (scenario scenario_start) = Ok true
  /\ books st1 = [go_book]
  /\ last (stdout st1) = Some (Print "Book issued successfully.")
  /\ last (log st1) = Some InfoSaved
  /\ files st1 !! "c.json" = Some scenario_text
  /\ Load.json_loads scenario_text = Ok scenario_value
  /\ Load.json_loads scenario_document = Ok scenario_value
  /\ fst (LibraryInventory_init "c.json" st1) = Ok tt
  /\ books (snd (LibraryInventory_init "c.json" st1)) = [go_book]
  /\ status go_book = "issued"
  /\ (forall stale,
        books (snd (LibraryInventory_init "c.json" (set_books stale st1))) = [go_book])
  /\ books (snd (LibraryInventory_init "c.json" (elsewhere (files st1)))) = [go_book]
  /\ books (snd (LibraryInventory_init "c.json"
                   (elsewhere {["c.json" := scenario_document]}))) = [go_book]
  /\ books (snd (LibraryInventory_init "c.json" (elsewhere ∅))) = []
  /\ books (snd (LibraryInventory_init "other.json" (elsewhere (files st1)))) = [].
Proof.
  intros st1. subst st1.
  split; [vm_compute; reflexivity|]. split; [vm_compute; reflexivity|].
  split; [vm_compute; reflexivity|]. split; [vm_compute; reflexivity|].
  split; [vm_compute; reflexivity|].
  split; [apply scenario_text_loads|]. split; [apply scenario_document_loads|].
  split; [vm_compute; reflexivity|]. split; [vm_compute; reflexivity|].
  split; [vm_compute; reflexivity|].
  split; [intros stale; vm_compute; reflexivity|].
  split; [vm_compute; reflexivity|]. split; [vm_compute; reflexivity|].
  split; vm_compute; reflexivity.
Qed.

(** ** What is written is what is read

    The text [json.dump] writes for a list of book dictionaries, read by
    [json.loads]. *)

Section Roundtrip.
Import Load Dump.

Lemma append_nil_l (s : string) : "" +:+ s = s.
Proof. reflexivity. Qed.

Lemma append_cons (c : ascii) (s t : string) : String c s +:+ t = String c (s +:+ t).
Proof. reflexivity. Qed.

Lemma append_assoc (s t u : string) : (s +:+ t) +:+ u = s +:+ t +:+ u.
Proof.
  induction s as [|c s IH]; [done|]. by rewrite !append_cons, IH.
Qed.

Lemma append_length (s t : string) :
  String.length (s +:+ t) = String.length s + String.length t.
Proof. induction s as [|c s IH]; [done|]. rewrite append_cons. simpl. lia. Qed.

(** Reading back one escaped character. *)
Lemma scanstring_escape_char (c : ascii) (tail : string) :
  scanstring (escape_char c +:+ tail) = p ← scanstring tail; Ok (push c p).
Proof.
  destruct c as [[] [] [] [] [] [] [] []]; reflexivity.
Qed.

Lemma scanstring_escape (s rest : string) :
  scanstring (escape s +:+ String dquote rest) = Ok (s, rest).
Proof.
  induction s as [|c s IH]; [done|].
  simpl escape. rewrite append_assoc, scanstring_escape_char, IH. done.
Qed.

Lemma skip_ws_spaces n s : skip_ws (spaces n +:+ s) = skip_ws s.
Proof. induction n as [|n IH]; [done|]. simpl spaces. by rewrite append_cons. Qed.

Lemma skip_ws_newline_indent i l s : skip_ws (newline_indent i l +:+ s) = skip_ws s.
Proof. unfold newline_indent. rewrite append_cons. apply skip_ws_spaces. Qed.

Lemma encode_str_append s rest :
  encode_str s +:+ rest = String dquote (escape s +:+ String dquote rest).
Proof. unfold encode_str. by rewrite append_cons, append_assoc. Qed.

Lemma scan_once_encode_str over f room s rest :
  scan_once over (S f) room (encode_str s +:+ rest) = Ok (JStr s, rest).
Proof. rewrite encode_str_append. simpl. by rewrite scanstring_escape. Qed.

Lemma members_encode_member over f room acc k v tail :
  members over (S (S f)) room acc (encode_member (k, v) +:+ tail)
  = match skip_ws tail with
    | String c2 r2 =>
        if (code c2 =? 125)%N then Ok (JObject (dict_set k (JStr v) acc), r2)
        else if (code c2 =? 44)%N
             then members over (S f) room (dict_set k (JStr v) acc) (skip_ws r2)
             else Raise JSONDecodeError
    | "" => Raise JSONDecodeError
    end.
Proof.
  unfold encode_member. cbn [fst snd].
  rewrite !append_assoc, encode_str_append.
  cbn [members]. change (code dquote =? 34)%N with true. cbn match.
  rewrite scanstring_escape. cbn [mbind result_bind rbind fst snd].
  rewrite !append_cons, append_nil_l.
  change (skip_ws (String ":" ?x)) with (String ":" x).
  cbn match. change (code ":" =? 58)%N with true. cbn match.
  change (skip_ws (String " " ?x)) with (skip_ws x).
  rewrite encode_str_append.
  change (skip_ws (String dquote ?x)) with (String dquote x).
  rewrite <-encode_str_append, scan_once_encode_str. reflexivity.
Qed.

Lemma skip_ws_comma_indent i l s :
  skip_ws (("," +:+ newline_indent i l) +:+ s) = String "," (newline_indent i l +:+ s).
Proof. by rewrite append_assoc. Qed.

Lemma members_encoded over room i l l' (d : list (string * string)) :
  forall f acc rest,
    d <> [] -> length d < f ->
    members over f room acc
      (join ("," +:+ newline_indent i l) (map encode_member d)
       +:+ newline_indent i l' +:+ String "}" rest)
    = Ok (JObject (collect acc d), rest).
Proof.
  induction d as [|[k v] d IH]; intros f acc rest Hd Hf; [done|].
  destruct f as [|[|f]]; simpl in Hf; [lia|lia|].
  destruct d as [|kv d].
  - cbn [map join]. rewrite members_encode_member, skip_ws_newline_indent.
    reflexivity.
  - change (join ?sep (map encode_member ((k, v) :: kv :: d)))
      with (encode_member (k, v) +:+ sep +:+ join sep (map encode_member (kv :: d))).
    rewrite !append_assoc, members_encode_member.
    rewrite append_cons, append_nil_l.
    change (skip_ws (String "," ?x)) with (String "," x). cbn match.
    change (code "," =? 125)%N with false. change (code "," =? 44)%N with true.
    cbn match. rewrite skip_ws_newline_indent.
    assert (forall x, skip_ws (join ("," +:+ newline_indent i l)
                                 (map encode_member (kv :: d)) +:+ x)
                      = join ("," +:+ newline_indent i l)
                          (map encode_member (kv :: d)) +:+ x) as ->.
    { intros x. destruct kv as [k' v']. destruct d; cbn [map join];
        unfold encode_member; cbn [fst snd];
        rewrite ?append_assoc, encode_str_append; reflexivity. }
    apply IH; [done|simpl in *; lia].
Qed.

Lemma encode_member_head kv :
  encode_member kv
  = String dquote ((escape (fst kv) +:+ String dquote "") +:+ ": " +:+ encode_str (snd kv)).
Proof. reflexivity. Qed.

(** A list of members that is not empty starts with a quote. *)
Lemma join_members_head sep kv (d : list (string * string)) :
  exists r, join sep (map encode_member (kv :: d)) = String dquote r.
Proof.
  destruct d; cbn [map join]; rewrite encode_member_head, ?append_cons; eauto.
Qed.

Lemma scan_once_brace over f room r :
  scan_once over (S f) (S room) (String "{" r)
  = match skip_ws r with
    | String c' r' =>
        if (code c' =? 125)%N then Ok (JObject [], r')
        else members over f room [] (String c' r')
    | "" => Raise JSONDecodeError
    end.
Proof. reflexivity. Qed.

Lemma scan_once_bracket over f room r :
  scan_once over (S f) (S room) (String "[" r)
  = match skip_ws r with
    | String c' r' =>
        if (code c' =? 93)%N then Ok (JArray [], r')
        else elements over f room [] (String c' r')
    | "" => Raise JSONDecodeError
    end.
Proof. reflexivity. Qed.

Lemma elements_step over f room acc s :
  elements over (S f) room acc s
  = v ← scan_once over f room s;
    match skip_ws (snd v) with
    | String c2 r2 =>
        if (code c2 =? 93)%N then Ok (JArray (acc ++ [fst v]), r2)
        else if (code c2 =? 44)%N
             then elements over f room (acc ++ [fst v]) (skip_ws r2)
             else Raise JSONDecodeError
    | "" => Raise JSONDecodeError
    end.
Proof. reflexivity. Qed.

Lemma scan_once_encode_dict over room i l (d : list (string * string)) f rest :
  d <> [] -> length d + 1 < f ->
  scan_once over f (S room) (encode_dict i l d +:+ rest)
  = Ok (JObject (collect [] d), rest).
Proof.
  intros Hd Hf. destruct f as [|f]; [lia|].
  destruct d as [|kv d]; [done|]. unfold encode_dict.
  rewrite !append_assoc, append_cons, append_nil_l, scan_once_brace.
  rewrite skip_ws_newline_indent.
  destruct (join_members_head ("," +:+ newline_indent i (S l)) kv d) as (r & Hhead).
  rewrite Hhead, append_cons.
  change (skip_ws (String dquote ?x)) with (String dquote x). cbn match.
  change (code dquote =? 125)%N with false. cbn match.
  rewrite <-append_cons, <-Hhead.
  change ("}" +:+ rest) with (String "}" rest).
  apply members_encoded; [done|simpl in *; lia].
Qed.

(** The value a dictionary of strings is read back as. *)
Lemma collect_to_dict (b : Book) : JObject (collect [] (to_dict b)) = as_json (to_dict b).
Proof. reflexivity. Qed.

Lemma elements_encoded over room i (bs : list Book) :
  forall f acc rest,
    bs <> [] -> length bs + 7 <= f ->
    elements over f (S room) acc
      (join ("," +:+ newline_indent i 1) (map (encode_dict i 1) (map to_dict bs))
       +:+ newline_indent i 0 +:+ String "]" rest)
    = Ok (JArray (acc ++ map (fun b => as_json (to_dict b)) bs), rest).
Proof.
  induction bs as [|b bs IH]; intros f acc rest Hb Hf; [done|].
  destruct f as [|f]; simpl in Hf; [lia|].
  destruct bs as [|b' bs].
  - cbn [map join]. rewrite elements_step.
    rewrite scan_once_encode_dict by (done || (simpl; lia)).
    cbn [mbind result_bind rbind fst snd].
    rewrite skip_ws_newline_indent.
    change (skip_ws (String "]" ?x)) with (String "]" x). cbn match.
    change (code "]" =? 93)%N with true. cbn match. reflexivity.
  - change (map (encode_dict i 1) (map to_dict (b :: b' :: bs)))
      with (encode_dict i 1 (to_dict b)
            :: map (encode_dict i 1) (map to_dict (b' :: bs))).
    change (join ?sep (?x :: map (encode_dict i 1) (map to_dict (b' :: bs))))
      with (x +:+ sep +:+ join sep (map (encode_dict i 1) (map to_dict (b' :: bs)))).
    rewrite !append_assoc, elements_step.
    rewrite scan_once_encode_dict by (done || (simpl; lia)).
    cbn [mbind result_bind rbind fst snd].
    rewrite append_cons, append_nil_l.
    change (skip_ws (String "," ?x)) with (String "," x). cbn match.
    change (code "," =? 93)%N with false. change (code "," =? 44)%N with true.
    cbn match. rewrite skip_ws_newline_indent.
    assert (forall x, skip_ws (join ("," +:+ newline_indent i 1)
                                 (map (encode_dict i 1) (map to_dict (b' :: bs))) +:+ x)
                      = join ("," +:+ newline_indent i 1)
                          (map (encode_dict i 1) (map to_dict (b' :: bs))) +:+ x) as ->.
    { intros x. destruct bs; cbn [map join]; unfold encode_dict, to_dict;
        rewrite ?append_assoc, ?append_cons; reflexivity. }
    rewrite IH by (done || (simpl in *; lia)).
    by rewrite <-app_assoc.
Qed.

Lemma join_length sep (l : list string) :
  Forall (fun x => 1 <= String.length x) l -> length l <= String.length (join sep l).
Proof.
  induction l as [|x l IH]; intros Hl; [simpl; lia|].
  apply Forall_cons in Hl as [Hx Hl]. specialize (IH Hl).
  destruct l as [|y l]; [simpl in *; lia|].
  change (join sep (x :: y :: l)) with (x +:+ sep +:+ join sep (y :: l)).
  rewrite !append_length. simpl in *. lia.
Qed.

Lemma encode_dict_length i l d : 1 <= String.length (encode_dict i l d).
Proof.
  unfold encode_dict. destruct d; [simpl; lia|].
  rewrite append_cons. simpl. lia.
Qed.

Lemma dump_head i (b : Book) (bs : list Book) :
  exists r,
    join ("," +:+ newline_indent i 1) (map (encode_dict i 1) (map to_dict (b :: bs)))
    = String "{" r.
Proof.
  destruct bs; cbn [map join]; unfold encode_dict, to_dict; rewrite ?append_cons; eauto.
Qed.

(** What [save_catalog] writes reads back as the list of the dictionaries of
    the books, two levels of nesting being enough. *)
Lemma decode_dump over room (bs : list Book) :
  decode over (S (S room)) (dump_indent 2 (map to_dict bs))
  = Ok (JArray (map (fun b => as_json (to_dict b)) bs)).
Proof.
  destruct bs as [|b bs]; [reflexivity|].
  unfold decode.
  set (raw := dump_indent 2 (map to_dict (b :: bs))).
  assert (length (b :: bs) + 3 <= String.length raw) as Hlen.
  { unfold raw, dump_indent. cbn [map]. rewrite !append_length.
    pose proof (join_length ("," +:+ newline_indent 2 1)
                  (map (encode_dict 2 1) (map to_dict (b :: bs)))) as Hj.
    rewrite !length_map in Hj. cbn [map] in Hj.
    assert (Forall (fun x => 1 <= String.length x)
              (encode_dict 2 1 (to_dict b) :: map (encode_dict 2 1) (map to_dict bs))) as HF.
    { rewrite <-map_cons. apply Forall_forall. intros x Hx.
      apply list_elem_of_In, in_map_iff in Hx as (d & <- & _). apply encode_dict_length. }
    specialize (Hj HF). simpl in *. lia. }
  assert (length (b :: bs) + 8 <= 2 * String.length raw + 2) as Hfuel by lia.
  destruct (2 * String.length raw + 2) as [|f]; [lia|]. clear Hlen.
  destruct (dump_head 2 b bs) as (r & Hhead).
  unfold raw, dump_indent. cbn [map] in *.
  rewrite append_cons, append_nil_l.
  change (skip_ws (String "[" ?x)) with (String "[" x).
  rewrite scan_once_bracket, skip_ws_newline_indent.
  rewrite Hhead, append_cons.
  change (skip_ws (String "{" ?x)) with (String "{" x). cbn match.
  change (code "{" =? 93)%N with false. cbn match.
  rewrite <-(append_cons "{" r), <-Hhead.
  change ("]") with (String "]" "").
  pose proof (elements_encoded over room 2 (b :: bs)) as He. cbn [map] in He.
  rewrite He; [reflexivity|done|lia].
Qed.

Lemma json_loads_dump (bs : list Book) :
  json_loads (dump_indent 2 (map to_dict bs))
  = Ok (JArray (map (fun b => as_json (to_dict b)) bs)).
Proof.
  unfold json_loads, recursion_limit, sure_depth.
  by rewrite (decode_dump RecursionError 998), (decode_dump NotLatin1 498).
Qed.

End Roundtrip.

(** ** Books as the program builds them *)

Section WellFormed.

Implicit Types (b : Book) (d : list (string * json)).

Lemma Book_new_well_formed c t a i s : well_formed (Book_new c t a i s).
Proof.
  unfold well_formed. simpl. repeat split; try apply strip_trimmed.
  apply normal_status_idemp.
Qed.

(** What a dictionary that decodes holds, and the book it gives. *)
Lemma from_dict_Ok data b :
  from_dict data = Ok b ->
  exists d t a i s,
    data = JObject d
    /\ dict_get "title" d = Some (JStr t)
    /\ dict_get "author" d = Some (JStr a)
    /\ dict_get "isbn" d = Some (JStr i)
    /\ default (JStr "available") (dict_get "status" d) = JStr s
    /\ b = Book_new (decoded_class d) t a i s.
Proof.
  destruct data as [| | | | | |d]; try discriminate. intros Hb.
  destruct (dict_get "title" d) as [tv|] eqn:Ht.
  2:{ destruct (from_dict_absent d) as [k Hk]; [by left|]. congruence. }
  destruct (dict_get "author" d) as [av|] eqn:Ha.
  2:{ destruct (from_dict_absent d) as [k Hk]; [by right; left|]. congruence. }
  destruct (dict_get "isbn" d) as [iv|] eqn:Hi.
  2:{ destruct (from_dict_absent d) as [k Hk]; [by right; right|]. congruence. }
  rewrite (from_dict_present d tv av iv Ht Ha Hi) in Hb.
  destruct tv as [| | | |t| |]; try discriminate.
  destruct av as [| | | |a| |]; try discriminate.
  destruct iv as [| | | |i| |]; try discriminate.
  destruct (default (JStr "available") (dict_get "status" d)) as [| | | |s| |] eqn:Hs;
    try discriminate.
  rewrite Book_init_str in Hb. injection Hb as <-.
  by exists d, t, a, i, s.
Qed.

Lemma from_dict_well_formed data b : from_dict data = Ok b -> well_formed b.
Proof.
  intros (d & t & a & i & s & _ & _ & _ & _ & _ & ->)%from_dict_Ok.
  apply Book_new_well_formed.
Qed.

Lemma from_dict_to_dict b : well_formed b -> from_dict (as_json (to_dict b)) = Ok b.
Proof.
  destruct b as [c t a i s]. intros (Ht & Ha & Hi & Hs).
  unfold trimmed in *. simpl in Ht, Ha, Hi, Hs.
  unfold as_json, to_dict. cbn [map fst snd cls title author isbn status].
  erewrite from_dict_present by reflexivity.
  cbn [dict_get String.eqb Ascii.eqb Bool.eqb default]. unfold id.
  rewrite Book_init_str. unfold Book_new. rewrite Ht, Ha, Hi, Hs.
  by destruct c.
Qed.

Lemma well_formed_issue b : well_formed b -> well_formed (snd (issue b)).
Proof.
  destruct (issue_cases b) as [->|[_ ->]]; [done|].
  unfold well_formed. simpl. tauto.
Qed.

Lemma well_formed_return b : well_formed b -> well_formed (snd (return_book b)).
Proof.
  destruct (return_book_cases b) as [->| ->]; [done|].
  unfold well_formed. simpl. tauto.
Qed.

Lemma comprehension_from_dict (bs : list Book) :
  Forall well_formed bs ->
  comprehension from_dict (map (fun b => as_json (to_dict b)) bs) = Ok bs.
Proof.
  induction 1 as [|b bs Hb _ IH]; [done|].
  cbn [map comprehension]. rewrite (from_dict_to_dict b Hb).
  cbn [mbind result_bind rbind]. by rewrite IH.
Qed.

Lemma comprehension_well_formed (items : list json) (bs : list Book) :
  comprehension from_dict items = Ok bs -> Forall well_formed bs.
Proof.
  revert bs. induction items as [|x items IH]; intros bs; simpl.
  - intros [= <-]. constructor.
  - unfold mbind, result_bind, rbind.
    destruct (from_dict x) as [b|] eqn:Hb; [|done].
    destruct (comprehension from_dict items) as [bs'|]; [|done].
    intros [= <-]. constructor; [by eapply from_dict_well_formed|by apply IH].
Qed.

End WellFormed.

(** X1.  Decoding reads nothing but the keys title, author, isbn, status
    and type: two dictionaries that hold the same under these five decode
    alike, whatever other keys they carry. *)
Theorem from_dict_same_fields (d d' : list (string * json)) :
  same_fields d d' -> from_dict (JObject d) = from_dict (JObject d').
Proof.
  unfold same_fields. rewrite !Forall_cons.
  intros (Ht & Ha & Hi & Hs & Hty & _).
  unfold from_dict, getitem. by rewrite Ht, Ha, Hi, Hs, Hty.
Qed.

Lemma from_dict_same_fields_witness :
  from_dict (JObject sample_minimal)
  = from_dict (JObject (("pages", JInt 3) :: sample_minimal ++ [("shelf", JNull)])).
Proof.
  apply from_dict_same_fields. unfold same_fields. by repeat constructor.
Defined.

(** X2.  Encoding and decoding again gives back every book the program can
    build, valid or not: every book of the constructor, whatever the
    arguments, and every book that a dictionary decoded to. *)
Theorem decode_encode_built :
  (forall c t a i s,
     from_dict (as_json (to_dict (Book_new c t a i s))) = Ok (Book_new c t a i s))
  /\ (forall data b,
        from_dict data = Ok b -> from_dict (as_json (to_dict b)) = Ok b).
Proof.
  split.
  - intros. apply from_dict_to_dict, Book_new_well_formed.
  - intros data b Hb. by eapply from_dict_to_dict, from_dict_well_formed.
Qed.

Lemma decode_encode_built_witness :
  from_dict (as_json (to_dict (mkBook CBook "Go" "A" "111" "available")))
  = Ok (mkBook CBook "Go" "A" "111" "available").
Proof.
  exact (proj2 decode_encode_built (JObject sample_minimal) _ eq_refl).
Defined.

(** ** Searching by identifier, and a loan *)

Section Search.

Implicit Types (b book : Book) (bs : list Book) (st : state) (q : string).

(** No book before the one found has the identifier. *)
Lemma first_with_isbn_first q bs i b :
  first_with_isbn q bs = Some (i, b) ->
  forall j b', j < i -> bs !! j = Some b' -> isbn b' <> q.
Proof.
  revert i. induction bs as [|b0 bs IH]; intros i; simpl; [done|].
  destruct (String.eqb (isbn b0) q) eqn:E.
  - intros [= <- <-] j b' Hj. lia.
  - apply String.eqb_neq in E.
    destruct (first_with_isbn q bs) as [[k b'']|]; simpl; [|done].
    intros [= <- <-] [|j] b' Hj; simpl.
    + by intros [= <-].
    + apply (IH k eq_refl). lia.
Qed.

Lemma first_with_isbn_app_new q bs book :
  q ∉ ids bs -> isbn book = q ->
  first_with_isbn q (bs ++ [book]) = Some (length bs, book).
Proof.
  unfold ids. induction bs as [|b bs IH]; simpl.
  - intros _ ->. by rewrite String.eqb_refl.
  - rewrite not_elem_of_cons. intros [Hne Hq] Hb.
    destruct (String.eqb (isbn b) q) eqn:E.
    { apply String.eqb_eq in E. congruence. }
    by rewrite IH.
Qed.

(** Changing the book found, its identifier kept, leaves it the one found. *)
Lemma first_with_isbn_insert q bs i b b' :
  first_with_isbn q bs = Some (i, b) -> isbn b' = isbn b ->
  first_with_isbn q (<[i := b']> bs) = Some (i, b').
Proof.
  revert i. induction bs as [|b0 bs IH]; intros i; simpl; [done|].
  destruct (String.eqb (isbn b0) q) eqn:E.
  - intros [= <- <-] Hb. simpl. by rewrite Hb, E.
  - destruct (first_with_isbn q bs) as [[k b'']|] eqn:Ek; simpl; [|done].
    intros [= <- <-] Hb. simpl. rewrite E. by rewrite (IH k eq_refl Hb).
Qed.

Lemma ids_insert bs i b b' :
  bs !! i = Some b -> isbn b' = isbn b -> ids (<[i := b']> bs) = ids bs.
Proof.
  intros Hi Hb. unfold ids. rewrite list_fmap_insert, Hb.
  apply list_insert_id. by rewrite list_lookup_fmap, Hi.
Qed.

End Search.

(** X3.  [search_by_isbn] changes nothing but the log and never raises.  It
    returns the first book, in store order, whose identifier equals the
    trimmed query, and [None] exactly when no book has that identifier. *)
Theorem search_by_isbn_spec (isbn_query : string) (st : state) :
  (exists record, snd (search_by_isbn isbn_query st) = logger record st)
  /\ match fst (search_by_isbn isbn_query st) with
     | Ok (Some (i, b)) =>
         books st !! i = Some b
         /\ isbn b = strip isbn_query
         /\ forall j b', j < i -> books st !! j = Some b' -> isbn b' <> strip isbn_query
     | Ok None => strip isbn_query ∉ ids (books st)
     | Raise _ => False
     end.
Proof.
  unfold search_by_isbn.
  destruct (first_with_isbn _ _) as [[i b]|] eqn:E; simpl.
  - split; [eauto|].
    destruct (first_with_isbn_Some _ _ _ _ E) as [Hi Hb].
    split; [done|]. split; [done|]. by eapply first_with_isbn_first.
  - split; [eauto|]. by apply first_with_isbn_None.
Qed.

(** X4.  A book whose identifier is trimmed, as the constructor leaves it,
    is found by its identifier once [add_book] has returned, whatever blanks
    surround the query: when the book was added it is the one found, at the
    end of the store; when it was refused, the one found is a book that was
    there before. *)
Theorem add_book_then_search (book : Book) (st : state) (q : string) :
  trimmed (isbn book) -> strip q = isbn book ->
  let st' := snd (add_book book st) in
  exists i b,
    fst (search_by_isbn q st') = Ok (Some (i, b))
    /\ isbn b = isbn book
    /\ (fst (add_book book st) = Ok true -> i = length (books st) /\ b = book)
    /\ (fst (add_book book st) = Ok false -> books st !! i = Some b).
Proof.
  intros Ht Hq st'. subst st'. rewrite add_book_eq, Ht. unfold search_by_isbn.
  rewrite Hq.
  destruct (first_with_isbn (isbn book) (books st)) as [[i b]|] eqn:E; simpl.
  - rewrite E. simpl. exists i, b.
    destruct (first_with_isbn_Some _ _ _ _ E) as [Hi Hb]. done.
  - apply first_with_isbn_None in E.
    rewrite (first_with_isbn_app_new _ _ book E eq_refl). simpl.
    exists (length (books st)), book. done.
Qed.

Lemma add_book_then_search_witness :
  exists i b,
    fst (search_by_isbn " 222 " (snd (add_book atlas (shelf [go_book]))))
    = Ok (Some (i, b))
    /\ isbn b = "222"
    /\ (fst (add_book atlas (shelf [go_book])) = Ok true -> i = 1 /\ b = atlas)
    /\ (fst (add_book atlas (shelf [go_book])) = Ok false
        -> [go_book] !! i = Some b).
Proof.
  exact (add_book_then_search atlas (shelf [go_book]) " 222 " eq_refl eq_refl).
Defined.

(** X5.  An ordinary book that is available goes through a whole loan and
    comes back as it was: [issue] succeeds, [return_book] of the issued
    book succeeds and gives the first book again; in between a second
    [issue] is refused, and afterwards a second [return_book] is refused,
    each leaving the book as it is. *)
Theorem issue_return_cycle (b : Book) :
  cls b = CBook -> status b = "available" ->
  let lent := snd (issue b) in
  fst (issue b) = true
  /\ status lent = "issued"
  /\ issue lent = (false, lent)
  /\ return_book lent = (true, b)
  /\ return_book b = (false, b).
Proof.
  destruct b as [c t a i s]. simpl. intros -> ->. done.
Qed.

Lemma issue_return_cycle_witness :
  let b := mkBook CBook "Go" "A" "111" "available" in
  fst (issue b) = true
  /\ status (snd (issue b)) = "issued"
  /\ issue (snd (issue b)) = (false, snd (issue b))
  /\ return_book (snd (issue b)) = (true, b)
  /\ return_book b = (false, b).
Proof.
  exact (issue_return_cycle (mkBook CBook "Go" "A" "111" "available") eq_refl eq_refl).
Defined.

(** ** The prompts and the issue and return screens *)

Section Prompting.

Implicit Types (st : state) (prompt l : string) (blanks rest : list string).

Lemma input_nonempty_loop_blanks prompt blanks tail st :
  Forall (fun l => strip l = "") blanks ->
  stdin st = (blanks ++ tail)%list ->
  input_nonempty_loop prompt (blanks ++ tail) st
  = input_nonempty_loop prompt tail
      (after_io tail (retries prompt (length blanks)) st).
Proof.
  intros Hb. revert st. induction Hb as [|b bl Hb _ IH]; intros st Hin.
  - simpl in *. unfold after_io, retries. simpl. rewrite app_nil_r, <-Hin.
    by destruct st.
  - simpl. rewrite Hb. rewrite IH by done.
    unfold after_io, retries. simpl. by rewrite <-!app_assoc.
Qed.

Lemma input_nonempty_head prompt st l rest :
  stdin st = l :: rest -> strip l <> "" ->
  input_nonempty prompt st = (Ok (strip l), after_io rest [Prompt prompt] st).
Proof.
  intros Hin Hl. unfold input_nonempty. rewrite Hin. simpl.
  by destruct (strip l).
Qed.

End Prompting.

(** X6.  [input_nonempty] skips the blank lines at the head of standard
    input, writing the prompt and the complaint for each, and returns the
    first line that is not blank, trimmed, leaving the lines after it; when
    every line is blank it takes them all and ends in [EOFError].  It
    changes nothing but standard input and output. *)
Theorem input_nonempty_spec (prompt : string) (st : state) (blanks : list string) :
  Forall (fun l => strip l = "") blanks ->
  (forall l rest,
     stdin st = (blanks ++ l :: rest)%list -> strip l <> "" ->
     input_nonempty prompt st
     = (Ok (strip l),
        after_io rest (retries prompt (length blanks) ++ [Prompt prompt]) st))
  /\ (stdin st = blanks ->
      input_nonempty prompt st
      = (Raise EOFError,
         after_io [] (retries prompt (length blanks) ++ [Prompt prompt]) st)).
Proof.
  intros Hb. split.
  - intros l rest Hin Hl. unfold input_nonempty. rewrite Hin.
    rewrite input_nonempty_loop_blanks by done. simpl.
    destruct (strip l) as [|c v]; [done|].
    unfold after_io, set_stdin, emit. simpl. by rewrite <-app_assoc.
  - intros Hin. unfold input_nonempty.
    rewrite <-(app_nil_r (stdin st)), Hin.
    rewrite input_nonempty_loop_blanks by (by rewrite ?app_nil_r). simpl.
    unfold after_io, emit. simpl. by rewrite <-app_assoc.
Qed.

Lemma input_nonempty_spec_witness :
  input_nonempty "ISBN: " (desk [] ["  "; ""; " 111 "; "x"])
  = (Ok "111",
     after_io ["x"] (retries "ISBN: " 2 ++ [Prompt "ISBN: "])
       (desk [] ["  "; ""; " 111 "; "x"])).
Proof.
  refine (proj1 (input_nonempty_spec "ISBN: " (desk [] ["  "; ""; " 111 "; "x"])
                   ["  "; ""] _) " 111 " ["x"] eq_refl _).
  - by repeat constructor.
  - discriminate.
Defined.

(** X7.  [issue_book_cli] on a line that is not blank: it takes that one
    line, never raises and touches no file.  The book looked for is the
    first with the trimmed line as identifier.  With no such book, with a
    reference book, or with a book that is not available, the store stays
    as it was and the matching message is written; an ordinary available
    book becomes issued where it stands, which is logged. *)
Theorem issue_book_cli_spec (st : state) (l : string) (rest : list string) :
  stdin st = l :: rest -> strip l <> "" ->
  let r := issue_book_cli st in
  let said msg :=
    stdout (snd r)
    = (stdout st ++ [Print (String Dump.newline "---- Issue a Book ----");
                     Prompt "Enter ISBN of the book to issue: "; Print msg])%list in
  fst r = Ok tt /\ stdin (snd r) = rest /\ files (snd r) = files st
  /\ match first_with_isbn (strip l) (books st) with
     | None => books (snd r) = books st /\ said "No book found with that ISBN."
     | Some (i, b) =>
         if is_reference b then
           books (snd r) = books st
           /\ said "This is a reference book and cannot be issued."
         else if is_available b then
           books (snd r) = <[i := set_status b "issued"]> (books st)
           /\ said "Book issued successfully."
           /\ log (snd r)
              = (log st ++ [InfoIsbnFound (strip l) b; InfoIssued (isbn b)])%list
         else
           books (snd r) = books st
           /\ said "Book is not available for issue (may already be issued)."
     end.
Proof.
  intros Hin Hl r said. subst r said.
  unfold issue_book_cli, mbind, M_bind, bind, print, tell.
  rewrite (input_nonempty_head _ _ l rest) by done.
  unfold search_by_isbn. rewrite strip_idemp. cbn [books after_io emit].
  destruct (first_with_isbn (strip l) (books st)) as [[i b]|] eqn:E.
  2:{ simpl. by rewrite <-!app_assoc. }
  destruct (first_with_isbn_Some _ _ _ _ E) as [Hi Hb].
  unfold issue, is_reference. destruct (cls b); simpl.
  - destruct (is_available b); simpl; rewrite <-!app_assoc; simpl.
    + done.
    + by rewrite list_insert_id.
  - by rewrite <-!app_assoc.
Qed.

Lemma issue_book_cli_spec_witness :
  let st := desk [atlas; mkBook CBook "Go" "A" "111" "available"] [" 111 "; "x"] in
  fst (issue_book_cli st) = Ok tt
  /\ stdin (snd (issue_book_cli st)) = ["x"]
  /\ books (snd (issue_book_cli st)) = [atlas; go_book].
Proof.
  intros st.
  destruct (issue_book_cli_spec st " 111 " ["x"] eq_refl) as (Hr & Hi & _ & Hb).
  { discriminate. }
  split; [exact Hr|]. split; [exact Hi|]. exact (proj1 Hb).
Defined.

(** X8.  [return_book_cli] on a line that is not blank: it takes that one
    line, never raises and touches no file.  With no book under the trimmed
    line the store stays as it was; a book found that is available stays as
    it is, and any other, a reference book included, becomes available
    where it stands, which is logged. *)
Theorem return_book_cli_spec (st : state) (l : string) (rest : list string) :
  stdin st = l :: rest -> strip l <> "" ->
  let r := return_book_cli st in
  let said msg :=
    stdout (snd r)
    = (stdout st ++ [Print (String Dump.newline "---- Return a Book ----");
                     Prompt "Enter ISBN of the book to return: "; Print msg])%list in
  fst r = Ok tt /\ stdin (snd r) = rest /\ files (snd r) = files st
  /\ match first_with_isbn (strip l) (books st) with
     | None => books (snd r) = books st /\ said "No book found with that ISBN."
     | Some (i, b) =>
         if is_available b then
           books (snd r) = books st
           /\ said "Book was already available in the library (not issued)."
         else
           books (snd r) = <[i := set_status b "available"]> (books st)
           /\ said "Book returned successfully."
           /\ log (snd r)
              = (log st ++ [InfoIsbnFound (strip l) b; InfoReturned (isbn b)])%list
     end.
Proof.
  intros Hin Hl r said. subst r said.
  unfold return_book_cli, mbind, M_bind, bind, print, tell.
  rewrite (input_nonempty_head _ _ l rest) by done.
  unfold search_by_isbn. rewrite strip_idemp. cbn [books after_io emit].
  destruct (first_with_isbn (strip l) (books st)) as [[i b]|] eqn:E.
  2:{ simpl. by rewrite <-!app_assoc. }
  destruct (first_with_isbn_Some _ _ _ _ E) as [Hi Hb].
  unfold return_book. destruct (is_available b); simpl; rewrite <-!app_assoc; simpl.
  - by rewrite list_insert_id.
  - done.
Qed.

Lemma return_book_cli_spec_witness :
  let st := desk [issued_atlas; go_book] ["222"] in
  fst (return_book_cli st) = Ok tt
  /\ stdin (snd (return_book_cli st)) = []
  /\ books (snd (return_book_cli st)) = [atlas; go_book].
Proof.
  intros st.
  destruct (return_book_cli_spec st "222" [] eq_refl) as (Hr & Hi & _ & Hb).
  { discriminate. }
  split; [exact Hr|]. split; [exact Hi|]. exact (proj1 Hb).
Defined.

(** ** Saving and loading *)

Section Persistence.

Import Load Dump.

Implicit Types (st : state) (raw : string) (bs : list Book).

Lemma dump_not_blank (data : list (list (string * string))) :
  strip (dump_indent 2 data) <> "".
Proof.
  rewrite strip_eq_empty. destruct data; [done|].
  unfold dump_indent. by rewrite append_cons.
Qed.

Lemma save_catalog_eq st :
  save_catalog st
  = if decide (catalog_path st ∈ unwritable st)
    then (Ok false, logger (ErrorSaving OSError) st)
    else (Ok true,
          logger InfoSaved
            (set_files
               (<[catalog_path st := dump_indent 2 (map to_dict (books st))]> (files st))
               st)).
Proof.
  unfold save_catalog, try_except, write_file, mbind, M_bind, bind, tell.
  by case_decide.
Qed.

Lemma load_catalog_absent st :
  files st !! catalog_path st = None ->
  load_catalog st = (Ok true, set_books [] (logger InfoNoCatalog st)).
Proof. intros Hf. unfold load_catalog. by rewrite Hf. Qed.

Lemma load_catalog_blank st raw :
  files st !! catalog_path st = Some raw -> strip raw = "" ->
  load_catalog st = (Ok true, set_books [] (logger WarningEmptyCatalog st)).
Proof. intros Hf Hs. unfold load_catalog. by rewrite Hf, Hs. Qed.

Lemma load_catalog_parsed st raw data :
  files st !! catalog_path st = Some raw -> strip raw <> "" ->
  json_loads raw = Ok data ->
  load_catalog st
  = match items ← iterate data; comprehension from_dict items with
    | Raise e => unexpected e st
    | Ok bs => (Ok true, logger (InfoLoaded (length bs)) (set_books bs st))
    end.
Proof.
  intros Hf Hs Hj. unfold load_catalog. rewrite Hf.
  destruct (strip raw); [done|]. by rewrite Hj.
Qed.

Lemma load_catalog_other st raw e :
  files st !! catalog_path st = Some raw -> strip raw <> "" ->
  json_loads raw = Raise e -> e <> JSONDecodeError -> e <> NotLatin1 ->
  load_catalog st = unexpected e st.
Proof.
  intros Hf Hs Hj He He'. unfold load_catalog. rewrite Hf.
  destruct (strip raw); [done|]. rewrite Hj. by destruct e.
Qed.

Lemma load_catalog_dumped st bs :
  files st !! catalog_path st = Some (dump_indent 2 (map to_dict bs)) ->
  Forall well_formed bs ->
  load_catalog st = (Ok true, logger (InfoLoaded (length bs)) (set_books bs st)).
Proof.
  intros Hf Hbs.
  rewrite (load_catalog_parsed st _ _ Hf (dump_not_blank _) (json_loads_dump bs)).
  cbn [iterate mbind result_bind rbind].
  by rewrite (comprehension_from_dict bs Hbs).
Qed.

End Persistence.

(** X9.  [save_catalog] never raises.  When the catalog path cannot be
    written it returns [False] and changes nothing but the log; otherwise it
    returns [True] and the file at the catalog path, and no other, holds
    the dump of the books.  Either way the books in memory, standard input
    and standard output stay as they were. *)
Theorem save_catalog_spec (st : state) :
  let r := save_catalog st in
  books (snd r) = books st /\ stdin (snd r) = stdin st
  /\ stdout (snd r) = stdout st
  /\ (catalog_path st ∈ unwritable st ->
      fst r = Ok false /\ files (snd r) = files st
      /\ log (snd r) = (log st ++ [ErrorSaving OSError])%list)
  /\ (catalog_path st ∉ unwritable st ->
      fst r = Ok true
      /\ files (snd r) !! catalog_path st
         = Some (Dump.dump_indent 2 (map to_dict (books st)))
      /\ forall p, p <> catalog_path st -> files (snd r) !! p = files st !! p).
Proof.
  intros r. subst r. rewrite save_catalog_eq.
  case_decide as Hw; simpl.
  - repeat split; done.
  - repeat split; try done.
    + apply lookup_insert_eq.
    + intros p Hp. by apply lookup_insert_ne.
Qed.

Lemma save_catalog_spec_witness :
  let st := mkState [go_book] "c.json" ∅ {["c.json"]} [] [] [] in
  fst (save_catalog st) = Ok false /\ files (snd (save_catalog st)) = files st
  /\ log (snd (save_catalog st)) = [ErrorSaving OSError].
Proof.
  intros st.
  refine (proj1 (proj2 (proj2 (proj2 (save_catalog_spec st)))) _).
  change ("c.json" ∈ ({["c.json"]} : gset string)). by apply elem_of_singleton.
Defined.

(** X10.  Saving and loading again gives the store back.  For books as the
    program builds them (trimmed fields, normalised status) and a catalog
    path that can be written, [save_catalog] returns [True], after which
    [load_catalog], whatever books are in memory by then, and a new
    inventory on the same path both end with exactly the books that were
    saved, in the same order, without a prompt. *)
Theorem save_then_load (st : state) :
  Forall well_formed (books st) -> catalog_path st ∉ unwritable st ->
  let st1 := snd (save_catalog st) in
  let loaded := logger (InfoLoaded (length (books st))) st1 in
  fst (save_catalog st) = Ok true
  /\ books loaded = books st
  /\ (forall stale, load_catalog (set_books stale st1) = (Ok true, loaded))
  /\ LibraryInventory_init (catalog_path st) st1 = (Ok tt, loaded).
Proof.
  intros Hbs Hw st1 loaded. subst loaded st1. rewrite save_catalog_eq.
  case_decide; [done|]. cbn [fst snd].
  split; [done|]. split; [done|].
  assert (forall stale,
            load_catalog
              (set_books stale
                 (logger InfoSaved
                    (set_files
                       (<[catalog_path st := Dump.dump_indent 2 (map to_dict (books st))]>
                          (files st)) st)))
            = (Ok true,
               logger (InfoLoaded (length (books st)))
                 (logger InfoSaved
                    (set_files
                       (<[catalog_path st := Dump.dump_indent 2 (map to_dict (books st))]>
                          (files st)) st)))) as Hload.
  { intros stale. rewrite (load_catalog_dumped _ (books st)); [done| |done].
    cbn [files catalog_path set_books logger set_files]. apply lookup_insert_eq. }
  split; [exact Hload|].
  unfold LibraryInventory_init, mbind, M_bind, bind, tell.
  specialize (Hload []). unfold set_books at 1 in Hload.
  cbn [files catalog_path set_books logger set_files unwritable stdin stdout log books] in *.
  by rewrite Hload.
Qed.

Lemma save_then_load_witness :
  let st := shelf [go_book; atlas] in
  fst (save_catalog st) = Ok true
  /\ books (snd (LibraryInventory_init "catalog.json" (snd (save_catalog st))))
     = [go_book; atlas].
Proof.
  intros st.
  assert (Forall well_formed (books st)) as Hbs by (by repeat constructor).
  assert (catalog_path st ∉ unwritable st) as Hw by apply not_elem_of_empty.
  destruct (save_then_load st Hbs Hw) as (Hs & Hb & _ & Hi).
  split; [exact Hs|]. exact (eq_trans (f_equal (fun r => books (snd r)) Hi) Hb).
Defined.

Section Loading.

Import Load.

Implicit Types (st : state) (raw : string) (bs : list Book) (items : list json).

Lemma comprehension_Forall2 items bs :
  comprehension from_dict items = Ok bs ->
  Forall2 (fun x b => from_dict x = Ok b) items bs.
Proof.
  revert bs. induction items as [|x items IH]; intros bs; simpl.
  - intros [= <-]. constructor.
  - unfold mbind, result_bind, rbind.
    destruct (from_dict x) as [b|] eqn:Hb; [|done].
    destruct (comprehension from_dict items) as [bs'|]; [|done].
    intros [= <-]. constructor; [done|by apply IH].
Qed.

(** A list with an item that does not decode does not decode: the
    exception is that of the first such item. *)
Lemma comprehension_Raise items e :
  comprehension from_dict items = Raise e ->
  exists i x,
    items !! i = Some x /\ from_dict x = Raise e
    /\ forall j y, j < i -> items !! j = Some y -> exists b, from_dict y = Ok b.
Proof.
  induction items as [|x items IH]; simpl; [done|].
  unfold mbind, result_bind, rbind.
  destruct (from_dict x) as [b|e'] eqn:Hb.
  - destruct (comprehension from_dict items) as [bs'|e']; [done|].
    intros [= <-]. destruct (IH eq_refl) as (i & y & Hy & He & Hfirst).
    exists (S i), y. split; [done|]. split; [done|].
    intros [|j] z Hj; simpl.
    + intros [= <-]. eauto.
    + apply Hfirst. lia.
  - intros [= <-]. exists 0, x. split; [done|]. split; [done|].
    intros j y Hj. lia.
Qed.

Lemma comprehension_Ok items bs x e :
  comprehension from_dict items = Ok bs -> x ∈ items -> from_dict x <> Raise e.
Proof.
  intros H%comprehension_Forall2 Hx.
  apply list_elem_of_lookup in Hx as [i Hi].
  destruct (Forall2_lookup_l _ _ _ _ _ H Hi) as (b & _ & ->). done.
Qed.

(** The books after the recovery dialogue are none or those from before. *)
Lemma recover_books raw st :
  books (snd (recover raw st)) = [] \/ books (snd (recover raw st)) = books st.
Proof.
  unfold recover, mbind, M_bind, bind, tell, print, input. simpl.
  destruct (stdin st) as [|answer ls]; simpl; [by right|].
  destruct (String.eqb (lower (strip answer)) "r").
  { unfold try_except, write_file, mbind, M_bind, bind, tell, print. simpl.
    case_decide; simpl; auto. }
  destruct (String.eqb (lower (strip answer)) "b"); [|by left].
  simpl. destruct (with_suffix (catalog_path st) ".backup.json") as [backup|e];
    simpl; [|by right].
  unfold try_except, replace_file, write_file, mbind, M_bind, bind, tell, print.
  simpl. destruct (files st !! catalog_path st); simpl; [|by right].
  repeat (case_decide; simpl); auto.
Qed.

Lemma load_catalog_books st :
  let bs' := books (snd (load_catalog st)) in
  bs' = [] \/ bs' = books st \/ exists items, comprehension from_dict items = Ok bs'.
Proof.
  unfold load_catalog.
  destruct (files st !! catalog_path st) as [raw|]; [|by left].
  destruct (strip raw); [by left|].
  destruct (json_loads raw) as [data|e].
  - destruct (iterate data) as [items|e]; simpl; [|by left].
    destruct (comprehension from_dict items) as [bs|e] eqn:E; simpl; [|by left].
    right. right. by exists items.
  - pose proof (recover_books raw st) as [H|H].
    + destruct e; simpl; auto.
    + destruct e; simpl; auto.
Qed.

End Loading.

(** X11.  Loading is all or nothing.  When the catalog file holds an array,
    [load_catalog] reads no input and changes no file; it returns [True]
    with one book for each item of the array, in order, each the decoding
    of its item, or, when an item does not decode, [False] with no book at
    all, the error printed being that of the first item that does not
    decode. *)
Theorem load_catalog_all_or_nothing (st : state) (raw : string) (items : list json) :
  files st !! catalog_path st = Some raw -> strip raw <> "" ->
  Load.json_loads raw = Ok (JArray items) ->
  let r := load_catalog st in
  files (snd r) = files st /\ stdin (snd r) = stdin st
  /\ ((fst r = Ok true /\ stdout (snd r) = stdout st
       /\ Forall2 (fun x b => from_dict x = Ok b) items (books (snd r)))
      \/ (fst r = Ok false /\ books (snd r) = []
          /\ exists i x e,
               items !! i = Some x /\ from_dict x = Raise e
               /\ (forall j y, j < i -> items !! j = Some y ->
                                exists b, from_dict y = Ok b)
               /\ stdout (snd r) = (stdout st ++ [PrintUnexpected e])%list))
  /\ (forall x e, x ∈ items -> from_dict x = Raise e -> fst r = Ok false).
Proof.
  intros Hf Hs Hj r. subst r. rewrite (load_catalog_parsed st raw _ Hf Hs Hj).
  cbn [iterate mbind result_bind rbind].
  destruct (comprehension from_dict items) as [bs|e] eqn:E; simpl.
  - split; [done|]. split; [done|]. split.
    + left. split; [done|]. split; [done|]. by apply comprehension_Forall2.
    + intros x e Hx He. by destruct (comprehension_Ok _ _ x e E Hx).
  - split; [done|]. split; [done|]. split; [|done].
    right. split; [done|]. split; [done|].
    destruct (comprehension_Raise _ _ E) as (i & x & Hx & He & Hfirst).
    by exists i, x, e.
Qed.

Lemma load_catalog_all_or_nothing_witness :
  let raw := doc "[{'title':'Go','author':'A','isbn':'111'},{'title':'Gopher'}]" in
  fst (load_catalog (on_disk raw [])) = Ok false.
Proof.
  intros raw.
  refine (proj2 (proj2 (proj2
            (load_catalog_all_or_nothing (on_disk raw []) raw
               [JObject [("title", JStr "Go"); ("author", JStr "A"); ("isbn", JStr "111")];
                JObject [("title", JStr "Gopher")]]
               _ _ _)))
            (JObject [("title", JStr "Gopher")]) (KeyError "author") _ _).
  - vm_compute. reflexivity.
  - vm_compute. discriminate.
  - vm_compute. reflexivity.
  - apply list_elem_of_further, list_elem_of_here.
  - reflexivity.
Defined.

(** X12.  A catalog file that holds a value other than an array.  A number,
    a boolean or [null] cannot be iterated, and a string or an object that
    is not empty yields strings, which do not decode: [load_catalog] returns
    [False] with no book, the error printed.  The empty string and the
    empty object load as the empty catalog, with [True]. *)
Theorem load_catalog_not_a_list (st : state) (raw : string) (data : json) :
  files st !! catalog_path st = Some raw -> strip raw <> "" ->
  Load.json_loads raw = Ok data ->
  let r := load_catalog st in
  let refused e :=
    fst r = Ok false /\ books (snd r) = []
    /\ stdout (snd r) = (stdout st ++ [PrintUnexpected e])%list in
  let empty := fst r = Ok true /\ books (snd r) = [] /\ stdout (snd r) = stdout st in
  match data with
  | JArray _ => True
  | JObject [] | JStr "" => empty
  | JObject _ | JStr _ => refused AttributeError
  | _ => refused TypeError
  end.
Proof.
  intros Hf Hs Hj r refused empty. subst r refused empty.
  rewrite (load_catalog_parsed st raw _ Hf Hs Hj).
  destruct data as [| | | |s|l|d]; try done.
  - by destruct s.
  - by destruct d.
Qed.

Lemma load_catalog_not_a_list_witness :
  (fst (load_catalog (on_disk "{}" [])) = Ok true
   /\ books (snd (load_catalog (on_disk "{}" []))) = []
   /\ stdout (snd (load_catalog (on_disk "{}" []))) = [])
  /\ (fst (load_catalog (on_disk "5" [])) = Ok false
      /\ books (snd (load_catalog (on_disk "5" []))) = []
      /\ stdout (snd (load_catalog (on_disk "5" []))) = [PrintUnexpected TypeError]).
Proof.
  split.
  - refine (load_catalog_not_a_list (on_disk "{}" []) "{}" (JObject []) _ _ _).
    + vm_compute. reflexivity.
    + vm_compute. discriminate.
    + vm_compute. reflexivity.
  - refine (load_catalog_not_a_list (on_disk "5" []) "5" (JInt 5) _ _ _).
    + vm_compute. reflexivity.
    + vm_compute. discriminate.
    + vm_compute. reflexivity.
Defined.

(** X13.  Unless the catalog file exists, is not blank and fails to parse,
    [load_catalog] asks nothing: it reads no input, changes no file and
    returns [True], having written nothing, or [False] with no book and the
    error printed.  With no file, or a file of white space only, it returns
    [True] with no book. *)
Theorem load_catalog_quiet (st : state) :
  (forall raw,
     files st !! catalog_path st = Some raw -> strip raw <> "" ->
     Load.json_loads raw <> Raise JSONDecodeError
     /\ Load.json_loads raw <> Raise NotLatin1) ->
  let r := load_catalog st in
  files (snd r) = files st /\ stdin (snd r) = stdin st
  /\ ((fst r = Ok true /\ stdout (snd r) = stdout st)
      \/ (fst r = Ok false /\ books (snd r) = []
          /\ exists e, stdout (snd r) = (stdout st ++ [PrintUnexpected e])%list))
  /\ (files st !! catalog_path st = None -> fst r = Ok true /\ books (snd r) = [])
  /\ (forall raw,
        files st !! catalog_path st = Some raw -> strip raw = "" ->
        fst r = Ok true /\ books (snd r) = []).
Proof.
  intros Hparse r. subst r.
  destruct (files st !! catalog_path st) as [raw|] eqn:Hf.
  2:{ rewrite (load_catalog_absent st Hf). simpl. repeat split; auto. }
  destruct (decide (strip raw = "")) as [Hs|Hs].
  { rewrite (load_catalog_blank st raw Hf Hs). simpl. repeat split; auto. }
  destruct (Hparse raw eq_refl Hs) as [Hd Hl].
  assert (forall raw', Some raw = Some raw' -> strip raw' = "" -> False) as Hno.
  { intros raw' [= <-]. done. }
  destruct (Load.json_loads raw) as [data|e] eqn:Hj.
  - rewrite (load_catalog_parsed st raw data Hf Hs Hj).
    destruct (items ← iterate data; comprehension from_dict items) as [bs|e]; simpl.
    + split; [done|]. split; [done|]. split; [by left|].
      split; [done|]. intros raw' H1 H2. by destruct (Hno raw' H1 H2).
    + split; [done|]. split; [done|]. split; [right; eauto|].
      split; [done|]. intros raw' H1 H2. by destruct (Hno raw' H1 H2).
  - rewrite (load_catalog_other st raw e Hf Hs Hj) by congruence. simpl.
    split; [done|]. split; [done|]. split; [right; eauto|].
    split; [done|]. intros raw' H1 H2. by destruct (Hno raw' H1 H2).
Qed.

Lemma load_catalog_quiet_witness :
  fst (load_catalog (on_disk "   " ["R"])) = Ok true
  /\ books (snd (load_catalog (on_disk "   " ["R"]))) = [].
Proof.
  refine (proj2 (proj2 (proj2 (proj2 (load_catalog_quiet (on_disk "   " ["R"]) _))))
            "   " _ _).
  - intros raw Hf Hs. exfalso. apply Hs.
    assert (raw = "   ") as -> by (vm_compute in Hf; congruence). reflexivity.
  - vm_compute. reflexivity.
  - reflexivity.
Defined.

(** X14.  Every book the program holds is as the constructor builds it:
    title, author and identifier trimmed, the status trimmed and in lower
    case.  A new inventory holds only such books, whatever the catalog file
    contains, and loading, adding, issuing, returning and saving keep the
    store so. *)
Theorem well_formed_kept (st : state) :
  (forall path, Forall well_formed (books (snd (LibraryInventory_init path st))))
  /\ (Forall well_formed (books st) ->
      Forall well_formed (books (snd (load_catalog st)))
      /\ Forall well_formed (books (snd (add_book_cli st)))
      /\ Forall well_formed (books (snd (issue_book_cli st)))
      /\ Forall well_formed (books (snd (return_book_cli st)))
      /\ Forall well_formed (books (snd (save_catalog st)))).
Proof.
  assert (forall st', Forall well_formed (books st') ->
                      Forall well_formed (books (snd (load_catalog st')))) as Hload.
  { intros st' Hst'.
    destruct (load_catalog_books st') as [->|[->|[items H]]]; [constructor|done|].
    by eapply comprehension_well_formed. }
  split.
  - intros path. unfold LibraryInventory_init, mbind, M_bind, bind, tell.
    match goal with |- context [load_catalog ?s] =>
      pose proof (Hload s (Forall_nil_2 _)) as H;
      destruct (load_catalog s) as [[ok|e] st'] end; exact H.
  - intros Hst. split; [by apply Hload|].
    assert (forall c t a i,
              t <> "" /\ trimmed t -> a <> "" /\ trimmed a -> i <> "" /\ trimmed i ->
              well_formed (Book_new c t a i "available")) as Hnew.
    { intros c t a i _ _ _. apply Book_new_well_formed. }
    repeat split.
    + by apply (keeps_add_book_cli _ Hnew st).
    + by apply (keeps_issue_book_cli _ well_formed_issue st).
    + by apply (keeps_return_book_cli _ well_formed_return st).
    + by apply (keeps_save_catalog well_formed st).
Qed.

Lemma well_formed_kept_witness :
  Forall well_formed (books (snd (issue_book_cli (desk [atlas; go_book] ["222"])))).
Proof.
  refine (proj1 (proj2 (proj2
            (proj2 (well_formed_kept (desk [atlas; go_book] ["222"])) _)))).
  by repeat constructor.
Defined.

(** ** What the screens change *)

Section Changes.

Implicit Types (st : state) (b : Book) (bs : list Book).

Lemma input_nonempty_books prompt st :
  books (snd (input_nonempty prompt st)) = books st.
Proof. apply input_nonempty_loop_books. Qed.

Lemma input_nonempty_value prompt st v :
  fst (input_nonempty prompt st) = Ok v -> v <> "" /\ trimmed v.
Proof. apply input_nonempty_loop_value. Qed.

(** [issue_book_cli] changes at most the status of one book. *)
Lemma issue_book_cli_change st :
  let bs' := books (snd (issue_book_cli st)) in
  bs' = books st
  \/ exists i b, books st !! i = Some b /\ bs' = <[i := set_status b "issued"]> (books st).
Proof.
  unfold issue_book_cli, mbind, M_bind, bind, print, tell.
  match goal with |- context [input_nonempty ?p ?s] =>
    pose proof (input_nonempty_books p s) as Hb;
    destruct (input_nonempty p s) as [[v|e] st1] end; simpl in Hb; [|by left].
  unfold search_by_isbn.
  destruct (first_with_isbn (strip v) (books st1)) as [[i b]|] eqn:E; [|by left].
  destruct (first_with_isbn_Some _ _ _ _ E) as [Hi _]. rewrite Hb in Hi.
  unfold issue, is_reference. destruct (cls b); [|by left].
  destruct (is_available b); simpl; rewrite Hb.
  - right. by exists i, b.
  - left. by apply list_insert_id.
Qed.

Lemma return_book_cli_change st :
  let bs' := books (snd (return_book_cli st)) in
  bs' = books st
  \/ exists i b,
       books st !! i = Some b /\ bs' = <[i := set_status b "available"]> (books st).
Proof.
  unfold return_book_cli, mbind, M_bind, bind, print, tell.
  match goal with |- context [input_nonempty ?p ?s] =>
    pose proof (input_nonempty_books p s) as Hb;
    destruct (input_nonempty p s) as [[v|e] st1] end; simpl in Hb; [|by left].
  unfold search_by_isbn.
  destruct (first_with_isbn (strip v) (books st1)) as [[i b]|] eqn:E; [|by left].
  destruct (first_with_isbn_Some _ _ _ _ E) as [Hi _]. rewrite Hb in Hi.
  unfold return_book. destruct (is_available b); simpl; rewrite Hb.
  - left. by apply list_insert_id.
  - right. by exists i, b.
Qed.

(** [add_book_cli] changes the store by at most one book, put at its end,
    whose identifier no book had. *)
Lemma add_book_cli_change st :
  let bs' := books (snd (add_book_cli st)) in
  bs' = books st
  \/ exists book, (isbn book ∉ ids (books st)) /\ bs' = (books st ++ [book])%list.
Proof.
  unfold add_book_cli, mbind, M_bind, bind, print, tell.
  match goal with |- context [input_nonempty "Title: " ?s] =>
    pose proof (input_nonempty_books "Title: " s) as Hb1;
    destruct (input_nonempty "Title: " s) as [[t|e] st1] end;
    simpl in Hb1; [|by left].
  match goal with |- context [input_nonempty "Author: " ?s] =>
    pose proof (input_nonempty_books "Author: " s) as Hb2;
    destruct (input_nonempty "Author: " s) as [[a|e] st2] end;
    simpl in Hb2; [|left; simpl; congruence].
  match goal with |- context [input_nonempty "ISBN (unique): " ?s] =>
    pose proof (input_nonempty_books "ISBN (unique): " s) as Hb3;
    pose proof (input_nonempty_value "ISBN (unique): " s) as Hv;
    destruct (input_nonempty "ISBN (unique): " s) as [[i|e] st3] end;
    simpl in Hb3, Hv; [|left; simpl; congruence].
  destruct (Hv i eq_refl) as [_ Hi]. unfold input.
  assert (books st3 = books st) as Hb by congruence.
  destruct (stdin (emit _ st3)) as [|answer ls] eqn:Hin; [by left|].
  rewrite add_book_eq.
  set (book := if String.eqb (lower (strip answer)) "y"
               then Book_new CReferenceBook t a i "available"
               else Book_new CBook t a i "available").
  assert (isbn book = i) as Hbook.
  { unfold book. by destruct (String.eqb _ _). }
  rewrite Hbook, Hi. cbn [books set_stdin emit].
  destruct (first_with_isbn i (books st3)) as [[j b]|] eqn:E; simpl; [by left|].
  right. exists book. rewrite Hbook, <-Hb. split; [|done].
  by apply first_with_isbn_None.
Qed.

Lemma catalogue_entry_insert bs i b s :
  bs !! i = Some b ->
  catalogue_entry <$> <[i := set_status b s]> bs = catalogue_entry <$> bs.
Proof.
  intros Hi. rewrite list_fmap_insert. apply list_insert_id.
  by rewrite list_lookup_fmap, Hi.
Qed.

End Changes.

(** X15.  The command-line operations never alter or drop what identifies a
    book.  Issuing and returning leave the class, title, author and
    identifier of every book, and the order of the books, as they were;
    adding leaves every book in place and puts at most one behind them,
    under an identifier no book had: identifiers that are distinct stay
    distinct through all three. *)
Theorem identifiers_kept (st : state) :
  catalogue_entry <$> books (snd (issue_book_cli st)) = catalogue_entry <$> books st
  /\ catalogue_entry <$> books (snd (return_book_cli st)) = catalogue_entry <$> books st
  /\ (exists more, books (snd (add_book_cli st)) = (books st ++ more)%list
                   /\ length more <= 1)
  /\ (unique_ids (books st) ->
      unique_ids (books (snd (issue_book_cli st)))
      /\ unique_ids (books (snd (return_book_cli st)))
      /\ unique_ids (books (snd (add_book_cli st)))).
Proof.
  assert (catalogue_entry <$> books (snd (issue_book_cli st))
          = catalogue_entry <$> books st) as Hissue.
  { destruct (issue_book_cli_change st) as [->|(i & b & Hi & ->)]; [done|].
    by apply catalogue_entry_insert. }
  assert (catalogue_entry <$> books (snd (return_book_cli st))
          = catalogue_entry <$> books st) as Hreturn.
  { destruct (return_book_cli_change st) as [->|(i & b & Hi & ->)]; [done|].
    by apply catalogue_entry_insert. }
  assert (forall bs bs', catalogue_entry <$> bs' = catalogue_entry <$> bs ->
                         ids bs' = ids bs) as Hids.
  { intros bs bs' H. unfold ids.
    assert (forall l : list Book, isbn <$> l = snd <$> (catalogue_entry <$> l)) as E.
    { intros l. rewrite <-list_fmap_compose. done. }
    by rewrite !E, H. }
  split; [exact Hissue|]. split; [exact Hreturn|]. split.
  - destruct (add_book_cli_change st) as [->|(book & _ & ->)].
    + exists []. split; [by rewrite app_nil_r|simpl; lia].
    + exists [book]. split; [done|simpl; lia].
  - intros Hu. unfold unique_ids. rewrite (Hids _ _ Hissue), (Hids _ _ Hreturn).
    split; [done|]. split; [done|].
    destruct (add_book_cli_change st) as [->|(book & Hnew & ->)]; [done|].
    unfold ids in *. rewrite fmap_app. apply NoDup_app.
    split; [done|]. split; [|apply NoDup_singleton].
    intros x Hx [->|H]%elem_of_cons; [done|]. by apply elem_of_nil in H.
Qed.

(** X16.  [add_book_cli] on four lines of which the first three are not
    blank: it takes the four lines, never raises and touches no file.  The
    book it builds from the trimmed lines is available, and a reference
    book exactly when the fourth line, trimmed and in lower case, is [y].
    It goes to the end of the store when no book has its identifier;
    otherwise the store stays as it was.  The message says which. *)
Theorem add_book_cli_spec (st : state) (t a i y : string) (rest : list string) :
  stdin st = t :: a :: i :: y :: rest ->
  strip t <> "" -> strip a <> "" -> strip i <> "" ->
  let r := add_book_cli st in
  let book :=
    Book_new (if String.eqb (lower (strip y)) "y" then CReferenceBook else CBook)
      t a i "available" in
  let said msg :=
    stdout (snd r)
    = (stdout st ++ [Print (String Dump.newline "---- Add a New Book ----");
                     Prompt "Title: "; Prompt "Author: "; Prompt "ISBN (unique): ";
                     Prompt "Is this a reference book (cannot be issued)? (y/n): ";
                     Print msg])%list in
  fst r = Ok tt /\ stdin (snd r) = rest /\ files (snd r) = files st
  /\ valid book
  /\ (strip i ∈ ids (books st) ->
      books (snd r) = books st
      /\ said "A book with that ISBN already exists. Add aborted.")
  /\ (strip i ∉ ids (books st) ->
      books (snd r) = (books st ++ [book])%list
      /\ said "Book added successfully.").
Proof.
  intros Hin Ht Ha Hi r book said. subst r said.
  assert (valid book) as Hvalid.
  { unfold valid, book. destruct (String.eqb _ _); simpl.
    all: repeat split; try apply strip_trimmed; auto. }
  unfold add_book_cli, mbind, M_bind, bind, print, tell.
  rewrite (input_nonempty_head _ _ t (a :: i :: y :: rest)) by done.
  rewrite (input_nonempty_head _ _ a (i :: y :: rest)) by done.
  rewrite (input_nonempty_head _ _ i (y :: rest)) by done.
  unfold input. cbn [stdin after_io emit set_stdin].
  rewrite add_book_eq.
  assert ((if String.eqb (lower (strip y)) "y"
           then Book_new CReferenceBook (strip t) (strip a) (strip i) "available"
           else Book_new CBook (strip t) (strip a) (strip i) "available") = book) as ->.
  { unfold book, Book_new. rewrite !strip_idemp. by destruct (String.eqb _ _). }
  assert (isbn book = strip i) as Hbook.
  { unfold book. by destruct (String.eqb _ _). }
  rewrite Hbook, strip_idemp. cbn [books after_io emit set_stdin].
  destruct (first_with_isbn (strip i) (books st)) as [[j b]|] eqn:E.
  - assert (strip i ∈ ids (books st)) as Hin'.
    { destruct (decide (strip i ∈ ids (books st))) as [|Hn]; [done|].
      apply first_with_isbn_None in Hn. congruence. }
    simpl. rewrite <-!app_assoc. simpl.
    split; [done|]. split; [done|]. split; [done|]. split; [done|].
    split; [done|]. intros Hn. by destruct (Hn Hin').
  - apply first_with_isbn_None in E.
    simpl. rewrite <-!app_assoc. simpl.
    split; [done|]. split; [done|]. split; [done|]. split; [done|].
    split; [|done]. intros Hin'. by destruct (E Hin').
Qed.

Lemma add_book_cli_spec_witness :
  let st := desk [go_book] [" Atlas "; "B"; "222"; " Y "; "x"] in
  fst (add_book_cli st) = Ok tt
  /\ stdin (snd (add_book_cli st)) = ["x"]
  /\ books (snd (add_book_cli st)) = [go_book; atlas].
Proof.
  intros st.
  destruct (add_book_cli_spec st " Atlas " "B" "222" " Y " ["x"] eq_refl)
    as (Hr & Hi & _ & _ & _ & Hnew); try discriminate.
  split; [exact Hr|]. split; [exact Hi|]. refine (proj1 (Hnew _)).
  intros [H|H]%elem_of_cons; [discriminate|]. by apply elem_of_nil in H.
Defined.

(** ** The backup path, titles, and a loan at the command line *)

Section Paths.

Implicit Types (s p q : string).




End Paths.



Section Titles.

Implicit Types (q t : string) (st : state).

Lemma occurs_in_trans q t u : occurs_in q t -> occurs_in t u -> occurs_in q u.
Proof.
  intros (p1 & s1 & ->) (p2 & s2 & ->).
  exists (p2 +:+ p1), (s1 +:+ s2). by rewrite !append_assoc.
Qed.

Lemma filter_sublist_impl {A} (P Q : A -> Prop)
    `{!forall x, Decision (P x)} `{!forall x, Decision (Q x)} (l : list A) :
  (forall x, P x -> Q x) -> filter P l `sublist_of` filter Q l.
Proof.
  intros HPQ. induction l as [|x l IH]; [done|].
  destruct (decide (P x)) as [HP|HP].
  - rewrite (filter_cons_True P) by done. rewrite (filter_cons_True Q) by auto.
    by constructor.
  - rewrite (filter_cons_False P) by done.
    destruct (decide (Q x)).
    + rewrite (filter_cons_True Q) by done. by constructor.
    + by rewrite (filter_cons_False Q).
Qed.

End Titles.

(** X18.  A longer query narrows the search by title.  When the first
    query, trimmed and in lower case, occurs in the second, every book
    found for the second is found for the first, in the same order, and
    both results keep the store order.  Queries that differ only in letter
    case and surrounding white space find the same books. *)
Theorem search_by_title_narrows (q1 q2 : string) (st : state) :
  exists r1 r2,
    fst (search_by_title q1 st) = Ok r1 /\ fst (search_by_title q2 st) = Ok r2
    /\ r1 `sublist_of` books st
    /\ (occurs_in (lower (strip q1)) (lower (strip q2)) -> r2 `sublist_of` r1)
    /\ (lower (strip q1) = lower (strip q2) -> r1 = r2).
Proof.
  unfold search_by_title. simpl. eexists _, _.
  split; [reflexivity|]. split; [reflexivity|].
  split; [apply sublist_filter|]. split.
  - intros Hq. apply filter_sublist_impl. intros b Hb.
    apply contains_spec. apply contains_spec in Hb. by eapply occurs_in_trans.
  - by intros ->.
Qed.

Lemma search_by_title_narrows_witness :
  exists r1 r2,
    fst (search_by_title " GO " (shelf three_books)) = Ok r1
    /\ fst (search_by_title "gopher" (shelf three_books)) = Ok r2
    /\ r2 `sublist_of` r1.
Proof.
  destruct (search_by_title_narrows " GO " "gopher" (shelf three_books))
    as (r1 & r2 & H1 & H2 & _ & Hsub & _).
  exists r1, r2. split; [exact H1|]. split; [exact H2|].
  apply Hsub. by exists "", "pher".
Defined.

(** X19.  A loan and its return at the command line give the store back.
    When the first line names an ordinary book that is available and the
    second line names the same identifier, [issue_book_cli] marks that book
    issued where it stands and [return_book_cli] after it restores the
    books exactly; each takes its one line and neither raises. *)
Theorem issue_then_return_cli (st : state) (l l' : string) (rest : list string)
    (i : nat) (b : Book) :
  stdin st = l :: l' :: rest -> strip l <> "" -> strip l' = strip l ->
  fst (search_by_isbn l st) = Ok (Some (i, b)) ->
  cls b = CBook -> status b = "available" ->
  let st1 := snd (issue_book_cli st) in
  let st2 := snd (return_book_cli st1) in
  fst (issue_book_cli st) = Ok tt
  /\ books st1 = <[i := set_status b "issued"]> (books st)
  /\ stdin st1 = l' :: rest
  /\ fst (return_book_cli st1) = Ok tt
  /\ books st2 = books st
  /\ stdin st2 = rest.
Proof.
  intros Hin Hl Hl' Hfound Hc Hs st1 st2. subst st2 st1.
  assert (first_with_isbn (strip l) (books st) = Some (i, b)) as E.
  { unfold search_by_isbn in Hfound.
    destruct (first_with_isbn (strip l) (books st)) as [[j b']|]; simpl in Hfound;
      congruence. }
  destruct (first_with_isbn_Some _ _ _ _ E) as [Hi Hb].
  assert (exists out records,
            issue_book_cli st
            = (Ok tt,
               mkState (<[i := set_status b "issued"]> (books st)) (catalog_path st)
                 (files st) (unwritable st) (l' :: rest) out records))
    as (out & records & Hissue).
  { unfold issue_book_cli, mbind, M_bind, bind, print, tell.
    rewrite (input_nonempty_head _ _ l (l' :: rest)) by done.
    unfold search_by_isbn. rewrite strip_idemp. cbn [books after_io emit].
    rewrite E. unfold issue, is_reference, is_available. rewrite Hc, Hs. simpl.
    by eexists _, _. }
  rewrite Hissue. cbn [fst snd books stdin].
  split; [done|]. split; [done|]. split; [done|].
  unfold return_book_cli, mbind, M_bind, bind, print, tell.
  rewrite (input_nonempty_head _ _ l' rest) by (done || congruence).
  unfold search_by_isbn. rewrite strip_idemp, Hl'. cbn [books after_io emit].
  rewrite (first_with_isbn_insert _ _ _ _ (set_status b "issued") E eq_refl).
  unfold return_book, is_available. simpl.
  rewrite list_insert_insert_eq.
  assert (set_status (set_status b "issued") "available" = b) as ->.
  { destruct b as [c t a id s]. simpl in Hs. by rewrite Hs. }
  by rewrite list_insert_id.
Qed.

Lemma issue_then_return_cli_witness :
  let st := desk [atlas; mkBook CBook "Go" "A" "111" "available"] ["111"; " 111"] in
  books (snd (issue_book_cli st)) = [atlas; go_book]
  /\ books (snd (return_book_cli (snd (issue_book_cli st)))) = books st.
Proof.
  intros st.
  destruct (issue_then_return_cli st "111" " 111" []
              1 (mkBook CBook "Go" "A" "111" "available"))
    as (_ & H1 & _ & _ & H2 & _); try reflexivity.
  { discriminate. }
  split; [exact H1|exact H2].
Defined.

(** ** The search screen *)

Section ReadOnly.

(** Computations that leave the books and the files as they are. *)
Context (bs0 : list Book) (fs0 : gmap string string).

Let same (st : state) : Prop := books st = bs0 /\ files st = fs0.

Lemma same_tell (f : state -> state) :
  (forall st, books (f st) = books st /\ files (f st) = files st) ->
  keeps same (tell f) (fun _ => True).
Proof.
  intros Hf st [Hb Hfs]. unfold tell, same. simpl.
  destruct (Hf st) as [-> ->]. done.
Qed.

Lemma same_print line : keeps same (print line) (fun _ => True).
Proof. by apply same_tell. Qed.

Lemma same_input text : keeps same (input text) (fun _ => True).
Proof. intros st HI. unfold input. simpl. by destruct (stdin st). Qed.

Lemma input_nonempty_loop_files prompt lines st :
  files (snd (input_nonempty_loop prompt lines st)) = files st.
Proof.
  revert st. induction lines as [|l ls IH]; intros st; simpl; [done|].
  destruct (strip l); [|done]. by rewrite IH.
Qed.

Lemma same_input_nonempty prompt : keeps same (input_nonempty prompt) (fun _ => True).
Proof.
  intros st [Hb Hfs]. unfold input_nonempty, same.
  by rewrite input_nonempty_loop_books, input_nonempty_loop_files.
Qed.

Lemma same_search_by_title q : keeps same (search_by_title q) (fun _ => True).
Proof. by intros st HI. Qed.

Lemma same_search_by_isbn q : keeps same (search_by_isbn q) (fun _ => True).
Proof.
  intros st HI. unfold search_by_isbn. by destruct (first_with_isbn _ _) as [[i b]|].
Qed.

Lemma same_str b : keeps same (str b) (fun _ => True).
Proof. by intros st HI. Qed.

Lemma same_print_books results : keeps same (print_books results) (fun _ => True).
Proof.
  induction results as [|b results IH]; simpl; [by apply keeps_ret|].
  eapply keeps_bind; [apply same_str|intros line _].
  eapply keeps_bind; [apply same_print|intros _ _]. exact IH.
Qed.

Lemma same_search_cli : keeps same search_cli (fun _ => True).
Proof.
  unfold search_cli.
  eapply keeps_bind; [apply same_print|intros _ _].
  eapply keeps_bind; [apply same_print|intros _ _].
  eapply keeps_bind; [apply same_print|intros _ _].
  eapply keeps_bind; [apply same_input|intros answer _].
  destruct (String.eqb (strip answer) "1").
  { eapply keeps_bind; [apply same_input_nonempty|intros q _].
    eapply keeps_bind; [apply same_search_by_title|intros results _].
    destruct results as [|b results]; [apply same_print|].
    eapply keeps_bind; [apply same_print|intros _ _]. apply same_print_books. }
  destruct (String.eqb (strip answer) "2"); [|apply same_print].
  eapply keeps_bind; [apply same_input_nonempty|intros q _].
  eapply keeps_bind; [apply same_search_by_isbn|intros found _].
  destruct found as [[i b]|]; [|apply same_print].
  eapply keeps_bind; [apply same_print|intros _ _].
  eapply keeps_bind; [apply same_str|intros line _]. apply same_print.
Qed.

End ReadOnly.

Section Screen.

Implicit Types (st : state) (b : Book) (bs : list Book).

Lemma print_books_rendered bs lines st :
  rendered bs = Ok lines ->
  print_books bs st = (Ok tt, after_io (stdin st) (Print <$> lines) st).
Proof.
  unfold rendered. revert lines st.
  induction bs as [|b bs IH]; intros lines st; simpl.
  - intros [= <-]. unfold after_io. simpl. rewrite app_nil_r. by destruct st.
  - unfold mbind at 1 2, result_bind, rbind.
    destruct (Book_str b) as [line|] eqn:Hb; [|done].
    destruct (comprehension Book_str bs) as [lines'|] eqn:Hbs; [|done].
    intros [= <-]. unfold mbind, M_bind, bind, str, print, tell. rewrite Hb.
    rewrite (IH lines' _ eq_refl). unfold after_io, emit. simpl.
    by rewrite <-app_assoc.
Qed.

Lemma print_books_stdin bs st : stdin (snd (print_books bs st)) = stdin st.
Proof.
  revert st. induction bs as [|b bs IH]; intros st; simpl; [done|].
  unfold mbind, M_bind, bind, str, print, tell.
  destruct (Book_str b) as [line|]; [|done]. by rewrite IH.
Qed.

End Screen.

(** X20.  The search screen only reads: whatever is waiting on standard
    input, and however it ends, [search_cli] leaves the books of the
    inventory and every file as they were. *)
Theorem search_cli_reads_only (st : state) :
  books (snd (search_cli st)) = books st /\ files (snd (search_cli st)) = files st.
Proof.
  exact (proj1 (same_search_cli (books st) (files st) st (conj eq_refl eq_refl))).
Qed.

(** X21.  What the search screen shows.  A first line other than 1 or 2,
    blanks aside, gives [Invalid choice.] and takes that one line.  On 2
    and an identifier, it shows the first book with that identifier, as
    [__str__] renders it, or says that there is none.  On 1 and a keyword,
    it shows the count and then one line for each book whose title holds
    the keyword, letter case aside, in store order, or says that there is
    none.  Both take the two lines. *)
Theorem search_cli_spec (st : state) (c : string) (rest : list string) :
  stdin st = c :: rest ->
  let r := search_cli st in
  let menu :=
    [Print (String Dump.newline "---- Search ----"); Print "1. Search by title";
     Print "2. Search by ISBN"; Prompt "Choice (1/2): "] in
  (strip c <> "1" -> strip c <> "2" ->
   r = (Ok tt, after_io rest (menu ++ [Print "Invalid choice."]) st))
  /\ (forall q rest',
        strip c = "2" -> rest = q :: rest' -> strip q <> "" ->
        stdin (snd r) = rest'
        /\ match first_with_isbn (strip q) (books st) with
           | None =>
               fst r = Ok tt
               /\ stdout (snd r)
                  = (stdout st ++ menu
                     ++ [Prompt "Enter ISBN: "; Print "No book found with that ISBN."])%list
           | Some (_, b) =>
               forall line, Book_str b = Ok line ->
                 fst r = Ok tt
                 /\ stdout (snd r)
                    = (stdout st ++ menu
                       ++ [Prompt "Enter ISBN: "; Print "Found:"; Print line])%list
           end)
  /\ (forall q rest',
        strip c = "1" -> rest = q :: rest' -> strip q <> "" ->
        let results := filter (title_matches q) (books st) in
        stdin (snd r) = rest'
        /\ (results = [] ->
            fst r = Ok tt
            /\ stdout (snd r)
               = (stdout st ++ menu
                  ++ [Prompt "Enter title keyword: ";
                      Print "No books found with that title keyword."])%list)
        /\ (forall lines,
              results <> [] -> rendered results = Ok lines ->
              fst r = Ok tt
              /\ stdout (snd r)
                 = (stdout st ++ menu
                    ++ [Prompt "Enter title keyword: ";
                        Print ("Found " +:+ decimal (length results) +:+ " result(s):")]
                    ++ (Print <$> lines))%list)).
Proof.
  intros Hin r menu. subst r menu.
  unfold search_cli, mbind, M_bind, bind, print, tell, input.
  cbn [stdin emit]. rewrite Hin. cbn [set_stdin emit books catalog_path files
    unwritable stdin stdout log].
  split; [|split].
  - intros H1 H2. apply String.eqb_neq in H1, H2. rewrite H1, H2.
    unfold after_io, emit, set_stdin. simpl. by rewrite <-!app_assoc.
  - intros q rest' Hc -> Hq. rewrite Hc.
    change ("2" =? "1") with false. change ("2" =? "2") with true. cbv beta iota.
    rewrite (input_nonempty_head _ _ q rest') by done.
    unfold search_by_isbn. rewrite strip_idemp. cbn [books after_io set_stdin emit].
    destruct (first_with_isbn (strip q) (books st)) as [[i b]|].
    + unfold print, tell, str. destruct (Book_str b) as [shown|e]; simpl.
      * split; [done|]. intros line [= <-]. by rewrite <-!app_assoc.
      * split; [done|]. intros line [=].
    + simpl. by rewrite <-!app_assoc.
  - intros q rest' Hc -> Hq.
    set (results := filter (title_matches q) (books st)). rewrite Hc.
    change ("1" =? "1") with true. cbv beta iota.
    rewrite (input_nonempty_head _ _ q rest') by done.
    unfold search_by_title. rewrite strip_idemp. cbn [books after_io set_stdin emit].
    assert (filter (fun b => contains (lower (strip q)) (lower (title b)) = true)
              (books st) = results) as ->.
    { apply list_filter_iff. intros b. apply contains_spec. }
    destruct results as [|b results'] eqn:E.
    + simpl. split; [done|]. split; [|done]. intros _. by rewrite <-!app_assoc.
    + split.
      { unfold print, tell. cbn [fst snd]. by rewrite print_books_stdin. }
      split; [done|]. intros lines _ Hlines. unfold print, tell.
      cbn [fst snd]. rewrite (print_books_rendered _ lines _ Hlines).
      unfold after_io. simpl. by rewrite <-!app_assoc.
Qed.

Lemma search_cli_spec_witness :
  let st := desk three_books [" 1 "; "go"] in
  fst (search_cli st) = Ok tt
  /\ stdout (snd (search_cli st))
     = [Print (String Dump.newline "---- Search ----"); Print "1. Search by title";
        Print "2. Search by ISBN"; Prompt "Choice (1/2): ";
        Prompt "Enter title keyword: "; Print "Found 2 result(s):";
        Print "Go by A (ISBN: 111) - Issued";
        Print "Gopher by Z (ISBN: 111) - Available"].
Proof.
  intros st.
  refine (proj2 (proj2 (proj2 (proj2 (search_cli_spec st " 1 " ["go"] eq_refl))
                          "go" [] eq_refl eq_refl _))
            ["Go by A (ISBN: 111) - Issued"; "Gopher by Z (ISBN: 111) - Available"]
            _ _).
  - discriminate.
  - vm_compute. discriminate.
  - vm_compute. reflexivity.
Defined.
